(** * Accounts receivable analysis: classification and aging

    A shallow embedding of [ARAnalyzer] (ar_analysis.py): the
    days-past-due computation, the invoice classifier and the
    aggregation into metrics and aging bands, with the properties the
    specification states about them.

    Conventions of the embedding.
    - The data frame [self.df] is a list of rows, indexed by position
      (the [RangeIndex] that [pd.read_excel] produces); [df.at[idx, col] = v]
      is an in-place update of the row at position [idx].
    - A date cell is a pandas [Timestamp] (nanoseconds since the epoch) or
      [NaT]; [NaT] is [None].
    - An amount cell is a Python number, the float [nan] that pandas uses
      for an empty cell, or [None].  Finite numbers are rationals: every
      comparison the code makes is exact on them, and sums are taken
      exactly (the rounding error of float64 addition is outside the
      model).
    - [datetime.now().date()] is an explicit argument [today], a day
      number. *)

From Stdlib Require Import ZArith QArith Qround Qabs Lia Lqa.
From stdpp Require Import base list strings pretty sorting gmap.

Local Open Scope Z_scope.

(** ** Cells *)

(** A [Timestamp], in nanoseconds since the epoch. *)
Definition timestamp := Z.

Definition ns_per_day : Z := 86400 * 1000000000.

(** [Timestamp.date()]: the calendar day, as a day number. *)
Definition ts_date (t : timestamp) : Z := t / ns_per_day.

(** [a - b] on a [Timestamp] and a date cell: a [Timedelta] in
    nanoseconds, or [NaT] when [b] is [NaT]. *)
Definition ts_sub (a : timestamp) (b : option timestamp) : option Z :=
  match b with
  | Some b => Some (a - b)
  | None => None
  end.

(** [Timedelta.days] (the floor of the difference in days); [NaT.days] is
    the float [nan], here [None]. *)
Definition td_days (d : option Z) : option Z :=
  match d with
  | Some d => Some (d / ns_per_day)
  | None => None
  end.

(** [max(0, x)] of the builtin [max]: the first argument is kept unless a
    later one compares greater, and [nan > 0] is false. *)
Definition py_max0 (x : option Z) : Z :=
  match x with
  | Some d => Z.max 0 d
  | None => 0
  end.

(** [pd.notna] on a date cell. *)
Definition notna {A} (c : option A) : bool :=
  match c with
  | Some _ => true
  | None => false
  end.

(** The Amount cell of a row. *)
Inductive amount_cell :=
  | AmountNone
  | AmountNaN
  | AmountNum (q : Q).

(** A Python float or int: the value of [row['Amount'] or 0]. *)
Inductive pynum :=
  | NaN
  | Num (q : Q).

(** Truth value of an amount cell: [None] and zero are false, every other
    number is true, [nan] included. *)
Definition truthy (a : amount_cell) : bool :=
  match a with
  | AmountNone => false
  | AmountNaN => true
  | AmountNum q => negb (Qeq_bool q 0)
  end.

(** [a or 0]. *)
Definition py_or0 (a : amount_cell) : pynum :=
  if truthy a then
    match a with
    | AmountNum q => Num q
    | _ => NaN
    end
  else Num 0.

(** [x <= t] for a number [t]: every comparison with [nan] is false. *)
Definition py_le (x : pynum) (t : Q) : bool :=
  match x with
  | NaN => false
  | Num q => Qle_bool q t
  end.

(** The Document Number cell.  A column of whole numbers is an int64
    column ([DocInt]) as long as none of its cells is empty; with an empty
    cell pandas reads it as a float64 column, where the number [z] is the
    float [z.0] ([DocFloat]) and the empty cell is [nan] ([DocNaN]).  A
    column of texts holds strings ([DocStr]).  The bound on a float cell
    is the range in which [str] prints a float in positional notation. *)
Inductive doc_cell :=
  | DocInt (z : Z)
  | DocFloat (z : Z) (Hz : Is_true (Z.abs z <? 10 ^ 16))
  | DocNaN
  | DocStr (s : string).

(** [str(row['Document Number'])]: the numeral of an integer, the numeral
    followed by [.0] for a float that is a whole number, [nan] for the
    empty cell of a float column, the string itself. *)
Definition py_str (d : doc_cell) : string :=
  match d with
  | DocInt z => pretty z
  | DocFloat z _ => pretty z +:+ ".0"
  | DocNaN => "nan"
  | DocStr s => s
  end.

(** ** Rows and the data frame *)

Inductive category :=
  | Unknown
  | Paid
  | CollectibleAR
  | Excluded.

#[global] Instance category_eq_dec : EqDecision category.
Proof. solve_decision. Defined.

Record row := mkRow {
  Document_Number : doc_cell;
  Name : string;
  Invoice_Date : option timestamp;
  Due_Date : option timestamp;
  Payment_Date : option timestamp;
  Amount : amount_cell;
  Days_Past_Due : Z;
  Category : category;
  Exclusion_Reason : string
}.

Abbreviation dataframe := (list row).

Definition set_Days_Past_Due (d : Z) (r : row) : row :=
  mkRow (Document_Number r) (Name r) (Invoice_Date r) (Due_Date r)
        (Payment_Date r) (Amount r) d (Category r) (Exclusion_Reason r).

Definition set_Category (c : category) (r : row) : row :=
  mkRow (Document_Number r) (Name r) (Invoice_Date r) (Due_Date r)
        (Payment_Date r) (Amount r) (Days_Past_Due r) c (Exclusion_Reason r).

Definition set_Exclusion_Reason (s : string) (r : row) : row :=
  mkRow (Document_Number r) (Name r) (Invoice_Date r) (Due_Date r)
        (Payment_Date r) (Amount r) (Days_Past_Due r) (Category r) s.

(** [df.at[idx, 'Category'] = c] and [df.at[idx, 'Exclusion Reason'] = s]. *)
Definition at_set_Category (idx : nat) (c : category) (df : dataframe) : dataframe :=
  alter (set_Category c) idx df.

Definition at_set_Exclusion_Reason (idx : nat) (s : string) (df : dataframe) : dataframe :=
  alter (set_Exclusion_Reason s) idx df.

(** [df.iterrows()]: the rows with their index labels, read off the frame
    when the loop starts. *)
Definition iterrows (df : dataframe) : list (nat * row) :=
  zip (seq 0 (length df)) df.

(** ** Configuration of the analyzer *)

Record exclusion_notes_t := mkNotes {
  note_wire_fee : string;
  note_india_withholding : string
}.

Record config := mkConfig {
  wire_fee_threshold : Q;
  india_withholding_docs : list string;
  exclusion_notes : exclusion_notes_t
}.

(** The values set by [__init__]. *)
Definition default_config : config :=
  mkConfig 100 ["3148"%string]
    (mkNotes "Remaining wire fees - excluded from AR"
             "India Withholding Tax - excluded from AR").

(** ** calculate_days_past_due *)

Definition days_past_due_calc (today : Z) (r : row) : Z :=
  let due_date := Due_Date r in
  let payment_date := Payment_Date r in
  match payment_date with
  | Some p =>
      (* pd.notna(payment_date) *)
      py_max0 (td_days (ts_sub p due_date))
  | None =>
      let due_date_only :=
        match due_date with
        | Some d => ts_date d
        | None => today
        end in
      Z.max 0 (today - due_date_only)
  end.

Definition calculate_days_past_due (today : Z) (df : dataframe) : dataframe :=
  map (fun r => set_Days_Past_Due (days_past_due_calc today r) r) df.

(** ** categorize_invoices *)

(** The four counters of the loop, printed when it ends. *)
Module Counters.
Record t := mk {
  paid_count : nat;
  wire_fee_count : nat;
  india_withholding_count : nat;
  collectible_count : nat
}.
End Counters.
Import Counters.
Definition counts := Counters.t.
Definition mkCounts := Counters.mk.

Definition init_columns (df : dataframe) : dataframe :=
  map (fun r => set_Exclusion_Reason "" (set_Category Unknown r)) df.

(** One iteration of [for idx, row in self.df.iterrows()]. *)
Definition categorize_step (cfg : config) (st : dataframe * counts)
    (it : nat * row) : dataframe * counts :=
  let '(df, c) := st in
  let '(idx, r) := it in
  let doc_num := py_str (Document_Number r) in
  let amount := py_or0 (Amount r) in
  let payment_date := Payment_Date r in
  if notna payment_date then
    (at_set_Category idx Paid df,
     mkCounts (S (paid_count c)) (wire_fee_count c)
              (india_withholding_count c) (collectible_count c))
  else if bool_decide (doc_num ∈ india_withholding_docs cfg) then
    (at_set_Exclusion_Reason idx (note_india_withholding (exclusion_notes cfg))
       (at_set_Category idx Excluded df),
     mkCounts (paid_count c) (wire_fee_count c)
              (S (india_withholding_count c)) (collectible_count c))
  else if py_le amount (wire_fee_threshold cfg) then
    (at_set_Exclusion_Reason idx (note_wire_fee (exclusion_notes cfg))
       (at_set_Category idx Excluded df),
     mkCounts (paid_count c) (S (wire_fee_count c))
              (india_withholding_count c) (collectible_count c))
  else
    (at_set_Category idx CollectibleAR df,
     mkCounts (paid_count c) (wire_fee_count c)
              (india_withholding_count c) (S (collectible_count c))).

Definition categorize_loop (cfg : config) (df : dataframe) : dataframe * counts :=
  let df0 := init_columns df in
  foldl (categorize_step cfg) (df0, mkCounts 0 0 0 0) (iterrows df0).

Definition categorize_invoices (cfg : config) (df : dataframe) : dataframe :=
  fst (categorize_loop cfg df).

(** ** calculate_ar_metrics *)

(** Exceptions and results. *)
Inductive exn :=
  | ZeroDivisionError.

Inductive result (A : Type) :=
  | Ok (a : A)
  | Raise (e : exn).
Arguments Ok {A} a.
Arguments Raise {A} e.

#[global] Instance result_ret : MRet result := fun A a => Ok a.

#[global] Instance result_bind : MBind result := fun A B k m =>
  match m with
  | Ok a => k a
  | Raise e => Raise e
  end.

(** [Series.sum()]: missing cells ([nan], [None]) are skipped; the sum of
    no cells is 0.  The cells that enter the sum are those of the code;
    the addition is the exact one, so that statements about the value of
    a sum are made up to a tolerance only. *)
Definition skipna (a : amount_cell) : option Q :=
  match a with
  | AmountNum q => Some q
  | _ => None
  end.

Definition Qsum (l : list Q) : Q := foldr Qplus 0%Q l.

Definition series_sum (l : list amount_cell) : Q := Qsum (omap skipna l).

(** [count] of a group: the number of cells that are not missing. *)
Definition series_count (l : list amount_cell) : nat := length (omap skipna l).

(** [Series.max()] of a non-empty integer column. *)
Definition series_max (l : list Z) : Z :=
  match l with
  | [] => 0
  | x :: l' => foldl Z.max x l'
  end.

(** [df[df['Category'] == c]]. *)
Definition where_Category (c : category) (df : dataframe) : dataframe :=
  filter (fun r => Category r = c) df.

(** [s.str.contains(pat)] for a pattern without regex metacharacters:
    [pat] occurs in [s]. *)
Fixpoint str_contains (pat s : string) : bool :=
  String.prefix pat s ||
  match s with
  | EmptyString => false
  | String _ s' => str_contains pat s'
  end.

Definition where_reason_contains (pat : string) (df : dataframe) : dataframe :=
  filter (fun r => str_contains pat (Exclusion_Reason r) = true) df.

(** [a / b] on Python integers. *)
Definition py_truediv (a b : nat) : result Q :=
  match b with
  | O => Raise ZeroDivisionError
  | S _ => Ok (inject_Z (Z.of_nat a) / inject_Z (Z.of_nat b))%Q
  end.

Module Metrics.
Record t := mk {
  total_payments : Q;
  collectible_ar : Q;
  excluded_total : Q;
  wire_fees : Q;
  india_withholding : Q;
  paid_count : nat;
  collectible_count : nat;
  excluded_count : nat;
  collection_rate : Q;
  oldest_days : Z
}.
End Metrics.

(** The dictionary [self.metrics]; its entries are evaluated in order, so
    a failing division leaves [self.metrics] unassigned. *)
Definition compute_metrics (df : dataframe) : result Metrics.t :=
  let paid_invoices := where_Category Paid df in
  let collectible_ar := where_Category CollectibleAR df in
  let excluded := where_Category Excluded df in
  q ← py_truediv (length paid_invoices)
        (length paid_invoices + length collectible_ar);
  Ok (Metrics.mk
        (series_sum (Amount <$> paid_invoices))
        (series_sum (Amount <$> collectible_ar))
        (series_sum (Amount <$> excluded))
        (series_sum (Amount <$> where_reason_contains "wire fees" excluded))
        (series_sum (Amount <$> where_reason_contains "India" excluded))
        (length paid_invoices)
        (length collectible_ar)
        (length excluded)
        (q * 100)%Q
        (if decide (0 < length collectible_ar)%nat
         then series_max (Days_Past_Due <$> collectible_ar) else 0)).

(** *** AR aging *)

Definition categorize_aging (days_past_due : Z) : string :=
  if days_past_due =? 0 then "On Time"
  else if days_past_due <=? 30 then "1-30 Days Past Due"
  else if days_past_due <=? 60 then "31-60 Days Past Due"
  else if days_past_due <=? 90 then "61-90 Days Past Due"
  else "Over 90 Days Past Due".

Record aging_row := mkAging {
  Aging_Category : string;
  Total_Amount : Q;
  Invoice_Count : nat
}.

(** The group keys of [groupby]: the distinct values of the key column,
    in sorted (lexicographic) order. *)
Definition groupby_keys (keys : list string) : list string :=
  merge_sort String.le (remove_dups keys).

(** [groupby('Aging Category').agg({'Amount': ['sum', 'count']})] on the
    rows [(Aging Category, Amount)]. *)
Definition groupby_agg (rows : list (string * amount_cell)) : list aging_row :=
  (fun k =>
     let grp := snd <$> filter (fun kr => fst kr = k) rows in
     mkAging k (series_sum grp) (series_count grp))
  <$> groupby_keys (fst <$> rows).

(** [numpy.rint]: to the nearest integer, ties to the even one. *)
Definition rint (q : Q) : Z :=
  let f := Qfloor q in
  match (q - inject_Z f ?= 1 # 2)%Q with
  | Lt => f
  | Gt => f + 1
  | Eq => if Z.even f then f else f + 1
  end.

(** [.round(2)] on a float cell, taken exactly: the rational nearest to
    [q] with two decimals.  The float64 result [rint(q * 100) / 100] can
    fall on the other side of a tie, so the properties below use
    [round2] only through its distance to [q], never through its value.
    The integer count column is unchanged. *)
Definition round2 (q : Q) : Q := (inject_Z (rint (q * 100)) / 100)%Q.

Definition round2_row (e : aging_row) : aging_row :=
  mkAging (Aging_Category e) (round2 (Total_Amount e)) (Invoice_Count e).

Definition aging_order : list string :=
  ["On Time"; "1-30 Days Past Due"; "31-60 Days Past Due";
   "61-90 Days Past Due"; "Over 90 Days Past Due"]%string.

(** [{cat: i for i, cat in enumerate(aging_order)}]. *)
Definition aging_order_map : gmap string nat :=
  list_to_map (zip aging_order (seq 0 (length aging_order))).

(** The [Order] column: [Series.map] with a dictionary gives [nan]
    ([None]) for a key that is not in it. *)
Definition Order (e : aging_row) : option nat :=
  aging_order_map !! Aging_Category e.

(** Ascending order of [sort_values]: numbers first, [nan] last. *)
Definition order_le (a b : option nat) : Prop :=
  match a, b with
  | Some x, Some y => (x ≤ y)%nat
  | _, None => True
  | None, Some _ => False
  end.

#[global] Instance order_le_dec : RelDecision order_le.
Proof. intros [x|] [y|]; simpl; apply _. Defined.

Definition Order_le (a b : aging_row) : Prop := order_le (Order a) (Order b).

#[global] Instance Order_le_dec : RelDecision Order_le.
Proof. intros a b. unfold Order_le. apply _. Defined.

(** [sort_values('Order').drop('Order', axis=1)]. *)
Definition sort_by_Order (t : list aging_row) : list aging_row :=
  merge_sort Order_le t.

(** [self.aging_summary] as grouping leaves it, before it is ordered. *)
Definition aging_groups (df : dataframe) : list aging_row :=
  let collectible_ar := where_Category CollectibleAR df in
  let with_aging :=
    (fun r => (categorize_aging (Days_Past_Due r), Amount r)) <$> collectible_ar in
  round2_row <$> groupby_agg with_aging.

Definition compute_aging_summary (df : dataframe) : list aging_row :=
  sort_by_Order (aging_groups df).

(** [calculate_ar_metrics]: [self.metrics], then [self.aging_summary]. *)
Definition calculate_ar_metrics (df : dataframe)
    : result (Metrics.t * list aging_row) :=
  m ← compute_metrics df;
  Ok (m, compute_aging_summary df).

(** [calculate_days_past_due], [categorize_invoices] and
    [calculate_ar_metrics] in sequence, as [run_analysis] calls them. *)
Definition run_core (cfg : config) (today : Z) (df : dataframe)
    : result (dataframe * Metrics.t * list aging_row) :=
  let df1 := calculate_days_past_due today df in
  let df2 := categorize_invoices cfg df1 in
  '(m, t) ← calculate_ar_metrics df2;
  Ok (df2, m, t).

(** ** Definitions used in the statements *)

(** What one iteration of the loop does to the row it visits. *)
Definition step_row (cfg : config) (r : row) : row :=
  if notna (Payment_Date r) then set_Category Paid r
  else if bool_decide (py_str (Document_Number r) ∈ india_withholding_docs cfg) then
    set_Exclusion_Reason (note_india_withholding (exclusion_notes cfg))
      (set_Category Excluded r)
  else if py_le (py_or0 (Amount r)) (wire_fee_threshold cfg) then
    set_Exclusion_Reason (note_wire_fee (exclusion_notes cfg))
      (set_Category Excluded r)
  else set_Category CollectibleAR r.

(** A row after [categorize_invoices]: the two columns are reset, then the
    loop visits the row once. *)
Definition annotate (cfg : config) (r : row) : row :=
  step_row cfg (set_Exclusion_Reason "" (set_Category Unknown r)).

(** The test of rule 3 on the Amount cell: [None] counts as zero, and a
    [nan] is at most nothing. *)
Definition amount_at_most (a : amount_cell) (t : Q) : Prop :=
  match a with
  | AmountNone => (0 <= t)%Q
  | AmountNaN => False
  | AmountNum q => (q <= t)%Q
  end.

(** Whether a Document Number cell is found in the list of withholding
    documents, by the kind of the cell: an integer by its numeral, a text
    by itself, a whole number of a float column by its numeral followed by
    [.0], an empty cell as [nan]. *)
Definition listed (docs : list string) (d : doc_cell) : Prop :=
  match d with
  | DocInt z => pretty z ∈ docs
  | DocFloat z _ => pretty z +:+ ".0" ∈ docs
  | DocNaN => "nan"%string ∈ docs
  | DocStr s => s ∈ docs
  end.

(** Document 3148, unpaid, amount 500, as the only record of an integer
    column, and in a column that pandas reads as float64 because the
    second record has no document number. *)
Definition withholding_int_column : dataframe :=
  [mkRow (DocInt 3148) "Alpha" (Some (20058 * ns_per_day))
         (Some (20089 * ns_per_day)) None (AmountNum 500) 0 Unknown ""].

Definition withholding_float_column : dataframe :=
  [mkRow (DocFloat 3148 I) "Alpha" (Some (20058 * ns_per_day))
         (Some (20089 * ns_per_day)) None (AmountNum 500) 0 Unknown "";
   mkRow DocNaN "Beta" (Some (20058 * ns_per_day))
         (Some (20089 * ns_per_day)) (Some (20134 * ns_per_day))
         (AmountNum 1000) 0 Unknown ""].

(** The order of [sort_values('Order')], on the band labels. *)
Definition band_le (a b : string) : Prop :=
  order_le (aging_order_map !! a) (aging_order_map !! b).

#[global] Instance band_le_dec : RelDecision band_le.
Proof. intros a b. unfold band_le. apply _. Defined.

(** The band labels of the Collectible AR rows. *)
Definition collectible_bands (df : dataframe) : list string :=
  (fun r => categorize_aging (Days_Past_Due r)) <$> where_Category CollectibleAR df.

(** The Amount cells of the Collectible AR rows of one band. *)
Definition band_amounts (df : dataframe) (b : string) : list amount_cell :=
  Amount <$> filter (fun r => categorize_aging (Days_Past_Due r) = b)
               (where_Category CollectibleAR df).

(** The statement of the specification about empty bands: each of the
    five bands has a row in the aging table, with total 0 and count 0
    when no Collectible AR row falls in it. *)
Definition emits_every_band (df : dataframe) : Prop :=
  ∀ m t, calculate_ar_metrics df = Ok (m, t) →
    ∀ b, b ∈ aging_order →
      ∃ e, e ∈ t ∧ Aging_Category e = b ∧
        (band_amounts df b = [] →
           (Total_Amount e == 0)%Q ∧ Invoice_Count e = 0%nat).

(** The value a cell contributes to a sum. *)
Definition cell_value (a : amount_cell) : Q :=
  match skipna a with
  | Some q => q
  | None => 0
  end.

(** The sum of the amounts of one group. *)
Definition group_sum (rows : list (string * amount_cell)) (k : string) : Q :=
  series_sum (snd <$> filter (fun kr => fst kr = k) rows).

(** One Collectible AR invoice of 2000, due on the day of the report. *)
Definition one_on_time : dataframe :=
  [mkRow (DocInt 1003) "Acme" (Some 0) (Some (20148 * ns_per_day)) None
         (AmountNum 2000) 0 CollectibleAR ""].

(** Four invoices of the specification's example (a withholding document,
    a wire fee, a paid invoice, an old open invoice) and three more open
    invoices, one of them with an empty Amount cell; the report is made on
    day 20148 (2025-03-01). *)
Definition sample : dataframe :=
  let day n := Some (n * ns_per_day) in
  [mkRow (DocStr "3148") "Alpha" (day 20058) (day 20089) None
         (AmountNum 500) 0 Unknown "";
   mkRow (DocInt 1001) "Beta" (day 20058) (day 20089) None
         (AmountNum 50) 0 Unknown "";
   mkRow (DocInt 1002) "Gamma" (day 20058) (day 20089) (day 20134)
         (AmountNum 1000) 0 Unknown "";
   mkRow (DocInt 1003) "Delta" (day 19967) (day 19997) None
         (AmountNum 2000) 0 Unknown "";
   mkRow (DocInt 1004) "Epsilon" (day 20100) (day 20130) None
         (AmountNum (123456 # 1000)) 0 Unknown "";
   mkRow (DocInt 1005) "Zeta" (day 20120) (day 20148) None
         (AmountNum (30025 # 100)) 0 Unknown "";
   mkRow (DocInt 1006) "Eta" (day 20100) (day 20130) None
         AmountNaN 0 Unknown ""].

Definition sample_classified : dataframe :=
  Eval vm_compute in
    categorize_invoices default_config (calculate_days_past_due 20148 sample).

Definition sample_metrics : Metrics.t :=
  Eval vm_compute in
    match compute_metrics sample_classified with
    | Ok m => m
    | Raise _ => Metrics.mk 0 0 0 0 0 0 0 0 0 0
    end.

Definition sample_aging : list aging_row :=
  Eval vm_compute in compute_aging_summary sample_classified.

(** ** load_data: the column names *)

Definition required_cols : list string :=
  ["Document Number"; "Name"; "Invoice Date"; "Due Date"; "Payment Date";
   "Amount"]%string.

Definition column_mapping : gmap string string :=
  list_to_map
    [("Maximum of Date", "Invoice Date");
     ("Maximum of Due Date/Receive By", "Due Date");
     ("Maximum of Payment Date", "Payment Date");
     ("Sum of Amount", "Amount")]%string.

(** [df.rename(columns=column_mapping)] on the column labels: a label that
    is a key of the dictionary is replaced by its value, any other label is
    kept. *)
Definition rename_columns (cols : list string) : list string :=
  (fun c => default c (column_mapping !! c)) <$> cols.

(** ** create_excel_report: the rows of the invoice sheet *)

(** Descending order on Days Past Due. *)
Definition Days_ge (a b : row) : Prop := Days_Past_Due b ≤ Days_Past_Due a.

#[global] Instance Days_ge_dec : RelDecision Days_ge.
Proof. intros a b. unfold Days_ge. apply _. Defined.

(** [df.sort_values('Days Past Due', ascending=False)].  The sort of pandas
    leaves the order of rows with equal keys open; here they keep the order
    they have in the frame. *)
Definition sort_by_days_desc (df : dataframe) : dataframe :=
  merge_sort Days_ge df.

(** ** The percentages and the high-risk figures of the report *)

(** [pct] of a row of the aging table, as both sheets compute it. *)
Definition aging_pct (m : Metrics.t) (e : aging_row) : Q :=
  if Qlt_le_dec 0 (Metrics.collectible_ar m)
  then (Total_Amount e / Metrics.collectible_ar m * 100)%Q
  else 0%Q.

(** [self.aging_summary[self.aging_summary['Aging Category'] == 'Over 90 Days Past Due']]. *)
Definition over_90_rows (t : list aging_row) : list aging_row :=
  filter (fun e => Aging_Category e = "Over 90 Days Past Due"%string) t.

(** [...['Total Amount'].iloc[0] if not ....empty else 0]. *)
Definition over_90_amount (t : list aging_row) : Q :=
  match over_90_rows t with
  | e :: _ => Total_Amount e
  | [] => 0%Q
  end.

Definition over_90_count (t : list aging_row) : nat :=
  match over_90_rows t with
  | e :: _ => Invoice_Count e
  | [] => 0%nat
  end.

(** * Properties *)

(** ** The classifier, row by row *)

Lemma categorize_step_fst cfg (pre : dataframe) r (post : dataframe) c :
  fst (categorize_step cfg (pre ++ r :: post, c) (length pre, r))
  = pre ++ step_row cfg r :: post.
Proof.
  assert (Halt : ∀ (f : row → row) x,
    alter f (length pre) (pre ++ x :: post) = pre ++ f x :: post).
  { intros f x. rewrite <- (Nat.add_0_r (length pre)).
    by rewrite alter_app_r. }
  unfold categorize_step, step_row, at_set_Category, at_set_Exclusion_Reason.
  repeat case_match; simpl; by rewrite !Halt.
Qed.

Lemma categorize_fold cfg (l pre : dataframe) c :
  fst (foldl (categorize_step cfg) (pre ++ l, c)
         (zip (seq (length pre) (length l)) l))
  = pre ++ (step_row cfg <$> l).
Proof.
  revert pre c. induction l as [|r l IH]; intros pre c; [done|].
  cbn [length seq zip_with foldl].
  pose proof (categorize_step_fst cfg pre r l c) as Hstep.
  destruct (categorize_step cfg (pre ++ r :: l, c) (length pre, r))
    as [df' c'] eqn:E.
  simpl in Hstep. subst df'.
  replace (S (length pre)) with (length (pre ++ [step_row cfg r]))
    by (rewrite length_app; simpl; lia).
  rewrite (cons_middle (step_row cfg r) pre l), app_assoc.
  rewrite IH. by rewrite <- app_assoc.
Qed.

(** The loop with positional updates is a map over the rows. *)
Lemma categorize_invoices_map cfg df :
  categorize_invoices cfg df = annotate cfg <$> df.
Proof.
  unfold categorize_invoices, categorize_loop, iterrows. cbv zeta.
  etrans; [apply (categorize_fold cfg (init_columns df) [])|].
  unfold init_columns. by rewrite <- list_fmap_compose.
Qed.

Lemma categorize_invoices_lookup cfg (df : dataframe) i :
  categorize_invoices cfg df !! i = annotate cfg <$> df !! i.
Proof. by rewrite categorize_invoices_map, list_lookup_fmap. Qed.

Lemma py_le_or0_spec a t : py_le (py_or0 a) t = true ↔ amount_at_most a t.
Proof.
  destruct a as [| |q]; unfold py_or0; simpl.
  - apply Qle_bool_iff.
  - split; [discriminate|tauto].
  - destruct (Qeq_bool q 0) eqn:E; simpl; rewrite Qle_bool_iff; [|done].
    apply Qeq_bool_eq in E. by rewrite E.
Qed.

Section classifier.
Context (cfg : config).

Let docs := india_withholding_docs cfg.
Let notes := exclusion_notes cfg.

Lemma annotate_paid r :
  is_Some (Payment_Date r) →
  Category (annotate cfg r) = Paid ∧ Exclusion_Reason (annotate cfg r) = "".
Proof. intros [p Hp]. unfold annotate, step_row. simpl. by rewrite Hp. Qed.

Lemma annotate_withholding r :
  Payment_Date r = None →
  py_str (Document_Number r) ∈ docs →
  Category (annotate cfg r) = Excluded ∧
  Exclusion_Reason (annotate cfg r) = note_india_withholding notes.
Proof.
  intros Hp Hd. unfold annotate, step_row. simpl. rewrite Hp. simpl.
  by rewrite bool_decide_eq_true_2.
Qed.

Lemma annotate_wire_fee r :
  Payment_Date r = None →
  py_str (Document_Number r) ∉ docs →
  amount_at_most (Amount r) (wire_fee_threshold cfg) →
  Category (annotate cfg r) = Excluded ∧
  Exclusion_Reason (annotate cfg r) = note_wire_fee notes.
Proof.
  intros Hp Hd Ha%py_le_or0_spec. unfold annotate, step_row. simpl.
  rewrite Hp. simpl. rewrite bool_decide_eq_false_2 by done. by rewrite Ha.
Qed.

Lemma annotate_collectible r :
  Payment_Date r = None →
  py_str (Document_Number r) ∉ docs →
  ¬ amount_at_most (Amount r) (wire_fee_threshold cfg) →
  Category (annotate cfg r) = CollectibleAR ∧
  Exclusion_Reason (annotate cfg r) = "".
Proof.
  intros Hp Hd Ha. unfold annotate, step_row. simpl.
  rewrite Hp. simpl. rewrite bool_decide_eq_false_2 by done.
  destruct (py_le _ _) eqn:E; [|done].
  by apply py_le_or0_spec in E.
Qed.

(** The four outcomes of [annotate], as one case analysis. *)
Lemma annotate_cases r :
  (Category (annotate cfg r) = Paid ∧ Exclusion_Reason (annotate cfg r) = "") ∨
  (Category (annotate cfg r) = Excluded ∧
   Exclusion_Reason (annotate cfg r) = note_india_withholding notes) ∨
  (Category (annotate cfg r) = Excluded ∧
   Exclusion_Reason (annotate cfg r) = note_wire_fee notes) ∨
  (Category (annotate cfg r) = CollectibleAR ∧
   Exclusion_Reason (annotate cfg r) = "").
Proof.
  unfold annotate, step_row. simpl.
  destruct (notna _); [by left|].
  destruct (bool_decide _); [by right; left|].
  destruct (py_le _ _); [by right; right; left|by right; right; right].
Qed.

Lemma annotate_frame r :
  Document_Number (annotate cfg r) = Document_Number r ∧
  Name (annotate cfg r) = Name r ∧
  Invoice_Date (annotate cfg r) = Invoice_Date r ∧
  Due_Date (annotate cfg r) = Due_Date r ∧
  Payment_Date (annotate cfg r) = Payment_Date r ∧
  Amount (annotate cfg r) = Amount r ∧
  Days_Past_Due (annotate cfg r) = Days_Past_Due r.
Proof.
  unfold annotate, step_row. simpl.
  destruct (notna _); [done|].
  destruct (bool_decide _); [done|].
  by destruct (py_le _ _).
Qed.

End classifier.

Lemma listed_py_str docs d : listed docs d ↔ py_str d ∈ docs.
Proof. by destruct d. Qed.

(** The rules in their order, on the cell as the code reads it: payment
    date present, then Paid; document cell found in the list, then
    Excluded with the withholding note; amount at most the threshold, then
    Excluded with the wire fee note; otherwise Collectible AR. *)
Lemma classification_rules cfg (df : dataframe) i r :
  df !! i = Some r →
  ∃ r', categorize_invoices cfg df !! i = Some r' ∧
    let withheld := listed (india_withholding_docs cfg) (Document_Number r) in
    let small := amount_at_most (Amount r) (wire_fee_threshold cfg) in
    let notes := exclusion_notes cfg in
    (is_Some (Payment_Date r) →
       Category r' = Paid ∧ Exclusion_Reason r' = "") ∧
    (Payment_Date r = None → withheld →
       Category r' = Excluded ∧
       Exclusion_Reason r' = note_india_withholding notes) ∧
    (Payment_Date r = None → ¬ withheld → small →
       Category r' = Excluded ∧ Exclusion_Reason r' = note_wire_fee notes) ∧
    (Payment_Date r = None → ¬ withheld → ¬ small →
       Category r' = CollectibleAR ∧ Exclusion_Reason r' = "").
Proof.
  intros Hr. exists (annotate cfg r). split.
  { by rewrite categorize_invoices_lookup, Hr. }
  cbv zeta. rewrite listed_py_str. repeat split.
  - by apply annotate_paid.
  - by apply annotate_paid.
  - by apply annotate_withholding.
  - by apply annotate_withholding.
  - by apply annotate_wire_fee.
  - by apply annotate_wire_fee.
  - by apply annotate_collectible.
  - by apply annotate_collectible.
Qed.

(** C1 (the code departs from it). In a sheet where one record has no
    document number the column is read as float64, [str] of the cell of
    document 3148 is [3148.0], which is not in the list, and the unpaid
    withholding document is not excluded: with its amount of 500 it comes
    out as Collectible AR.  The same record in an integer column is
    excluded with the withholding note. *)
Theorem float_document_number_not_excluded :
  (fun r => (py_str (Document_Number r), Category r, Exclusion_Reason r)) <$>
    categorize_invoices default_config withholding_float_column
  = [("3148.0", CollectibleAR, ""); ("nan", Paid, "")] ∧
  (fun r => (py_str (Document_Number r), Category r, Exclusion_Reason r)) <$>
    categorize_invoices default_config withholding_int_column
  = [("3148", Excluded, "India Withholding Tax - excluded from AR")].
Proof. split; reflexivity. Qed.

(** C4. After classification no record is left Unknown: each has one of
    Paid, Collectible AR, Excluded; and, the configured notes being
    non-empty texts (as the default ones are), the exclusion reason is
    non-empty exactly for the Excluded records and is the empty string
    for the others. *)
Theorem category_reason_invariant cfg (df : dataframe) r' :
  note_wire_fee (exclusion_notes cfg) ≠ "" →
  note_india_withholding (exclusion_notes cfg) ≠ "" →
  r' ∈ categorize_invoices cfg df →
  Category r' ≠ Unknown ∧
  (Category r' = Paid ∨ Category r' = CollectibleAR ∨ Category r' = Excluded) ∧
  (Exclusion_Reason r' ≠ "" ↔ Category r' = Excluded) ∧
  (Category r' ≠ Excluded → Exclusion_Reason r' = "").
Proof.
  intros Hw Hi. rewrite categorize_invoices_map.
  intros (r & -> & _)%list_elem_of_fmap.
  destruct (annotate_cases cfg r) as [[-> ->]|[[-> ->]|[[-> ->]|[-> ->]]]];
    naive_solver.
Qed.

(** C10. [categorize_invoices] keeps the number and the order of the
    records and, in each record, leaves the six input fields and Days
    Past Due as they were: only Category and Exclusion Reason are
    written. *)
Theorem categorize_invoices_frame cfg (df : dataframe) :
  length (categorize_invoices cfg df) = length df ∧
  Forall2 (fun r r' =>
             Document_Number r' = Document_Number r ∧
             Name r' = Name r ∧
             Invoice_Date r' = Invoice_Date r ∧
             Due_Date r' = Due_Date r ∧
             Payment_Date r' = Payment_Date r ∧
             Amount r' = Amount r ∧
             Days_Past_Due r' = Days_Past_Due r)
          df (categorize_invoices cfg df).
Proof.
  rewrite categorize_invoices_map. split; [by rewrite length_fmap|].
  apply Forall2_fmap_r, Forall_Forall2_diag, Forall_forall.
  intros r _. apply annotate_frame.
Qed.

(** C6 (the code departs from it). An unpaid record that is not a
    withholding document and whose Amount cell is empty, read by pandas as
    [nan]: [nan or 0] is [nan], [nan <= 100] is false, and the record
    comes out as Collectible AR. *)
Theorem missing_amount_nan_collectible :
  (fun r => (Category r, Exclusion_Reason r)) <$>
    categorize_invoices default_config
      [mkRow (DocInt 1004) "Acme" (Some 0) (Some 0) None AmountNaN 0 Unknown ""]
  = [(CollectibleAR, "")].
Proof. reflexivity. Qed.

(** Where the cell holds [None] the coercion does apply: the record is
    excluded as a wire fee as soon as the threshold is not negative. *)
Lemma missing_amount_none_wire_fee cfg (df : dataframe) i r :
  df !! i = Some r →
  Payment_Date r = None →
  py_str (Document_Number r) ∉ india_withholding_docs cfg →
  Amount r = AmountNone →
  (0 <= wire_fee_threshold cfg)%Q →
  ∃ r', categorize_invoices cfg df !! i = Some r' ∧
    Category r' = Excluded ∧
    Exclusion_Reason r' = note_wire_fee (exclusion_notes cfg).
Proof.
  intros Hr Hp Hd Ha Ht. exists (annotate cfg r). split.
  { by rewrite categorize_invoices_lookup, Hr. }
  apply annotate_wire_fee; [done..|]. by rewrite Ha.
Qed.

(** ** Days past due *)

Lemma ns_per_day_pos : 0 < ns_per_day.
Proof. reflexivity. Qed.


Lemma ts_date_midnight a : ts_date (a * ns_per_day) = a.
Proof. apply Z.div_mul. pose proof ns_per_day_pos. lia. Qed.



Lemma days_past_due_calc_nonneg today r : 0 ≤ days_past_due_calc today r.
Proof.
  unfold days_past_due_calc.
  destruct (Payment_Date r) as [p|]; [|lia].
  destruct (Due_Date r) as [d|]; simpl; lia.
Qed.

Lemma calculate_days_past_due_nonneg today (df : dataframe) r :
  r ∈ calculate_days_past_due today df → 0 ≤ Days_Past_Due r.
Proof.
  unfold calculate_days_past_due.
  intros (r0 & -> & _)%list_elem_of_fmap. simpl.
  apply days_past_due_calc_nonneg.
Qed.

(** ** Aging bands *)


(** Every band label is one of the five of [aging_order]. *)
Lemma categorize_aging_in_order d : categorize_aging d ∈ aging_order.
Proof.
  unfold categorize_aging, aging_order.
  repeat case_match; set_solver.
Qed.

(** ** Collection rate *)

Lemma compute_metrics_zero_denominator (df : dataframe) :
  (length (where_Category Paid df) +
   length (where_Category CollectibleAR df) = 0)%nat →
  compute_metrics df = Raise ZeroDivisionError.
Proof. intros H. unfold compute_metrics. by rewrite H. Qed.

Lemma calculate_ar_metrics_zero_denominator (df : dataframe) :
  (length (where_Category Paid df) +
   length (where_Category CollectibleAR df) = 0)%nat →
  calculate_ar_metrics df = Raise ZeroDivisionError.
Proof.
  intros H. unfold calculate_ar_metrics.
  by rewrite compute_metrics_zero_denominator.
Qed.

(** C2 (the code departs from it). With no Paid and no Collectible AR
    record the division in [collection_rate] raises [ZeroDivisionError]:
    on the empty data set, and on a data set whose only record is an
    unpaid invoice of 50, through the whole run. *)
Theorem collection_rate_zero_division :
  calculate_ar_metrics [] = Raise ZeroDivisionError ∧
  run_core default_config 20148
    [mkRow (DocInt 1001) "Acme" (Some 0) (Some 0) None (AmountNum 50) 0
           Unknown ""]
  = Raise ZeroDivisionError.
Proof. split; reflexivity. Qed.

(** ** The aging table *)

#[global] Instance order_le_trans : Transitive order_le.
Proof. intros [x|] [y|] [z|]; simpl; try done. lia. Qed.

#[global] Instance order_le_total : Total order_le.
Proof. intros [x|] [y|]; simpl; try tauto. lia. Qed.

#[global] Instance Order_le_trans : Transitive Order_le.
Proof. intros a b c. unfold Order_le. apply order_le_trans. Qed.

#[global] Instance Order_le_total : Total Order_le.
Proof. intros a b. unfold Order_le. apply order_le_total. Qed.

Lemma aging_order_NoDup : NoDup aging_order.
Proof. apply (bool_decide_unpack _). by vm_compute. Qed.

Lemma aging_order_sorted : StronglySorted band_le aging_order.
Proof. apply (bool_decide_unpack _). by vm_compute. Qed.

(** On the five labels the order is antisymmetric: the dictionary gives
    them five different positions. *)
Lemma band_le_antisym a b :
  a ∈ aging_order → b ∈ aging_order → band_le a b → band_le b a → a = b.
Proof.
  assert (H : Forall (fun a => Forall (fun b =>
            band_le a b → band_le b a → a = b) aging_order) aging_order).
  { apply (bool_decide_unpack _). by vm_compute. }
  intros Ha Hb. rewrite Forall_forall in H. specialize (H a Ha).
  rewrite Forall_forall in H. by apply H.
Qed.

Lemma StronglySorted_filter {A} (R : relation A) (P : A → Prop)
    `{∀ x, Decision (P x)} l :
  StronglySorted R l → StronglySorted R (filter P l).
Proof.
  induction 1 as [|x l Hl IH Hx]; [constructor|].
  rewrite filter_cons. case_decide; [|done].
  constructor; [done|].
  rewrite Forall_forall in Hx |- *.
  intros y [_ Hy]%list_elem_of_filter. by apply Hx.
Qed.

Lemma groupby_keys_elem_of keys k : k ∈ groupby_keys keys ↔ k ∈ keys.
Proof.
  unfold groupby_keys. rewrite merge_sort_Permutation.
  apply elem_of_remove_dups.
Qed.

Lemma groupby_keys_NoDup keys : NoDup (groupby_keys keys).
Proof.
  unfold groupby_keys. rewrite merge_sort_Permutation.
  apply NoDup_remove_dups.
Qed.

Lemma groupby_agg_keys rows :
  Aging_Category <$> groupby_agg rows = groupby_keys (fst <$> rows).
Proof.
  unfold groupby_agg. rewrite <- list_fmap_compose.
  apply list_fmap_id.
Qed.

Lemma collectible_bands_in_order df b :
  b ∈ collectible_bands df → b ∈ aging_order.
Proof.
  unfold collectible_bands. intros (r & -> & _)%list_elem_of_fmap.
  apply categorize_aging_in_order.
Qed.

Lemma aging_summary_keys_Permutation df :
  Aging_Category <$> compute_aging_summary df
  ≡ₚ groupby_keys (collectible_bands df).
Proof.
  unfold compute_aging_summary, sort_by_Order, aging_groups. cbv zeta.
  rewrite merge_sort_Permutation.
  rewrite <- list_fmap_compose.
  change (Aging_Category ∘ round2_row) with Aging_Category.
  rewrite groupby_agg_keys, <- list_fmap_compose. done.
Qed.

Lemma aging_summary_keys_sorted df :
  StronglySorted band_le (Aging_Category <$> compute_aging_summary df).
Proof.
  unfold compute_aging_summary, sort_by_Order, aging_groups. cbv zeta.
  apply (StronglySorted_fmap _ Order_le); [done|].
  apply StronglySorted_merge_sort; apply _.
Qed.

(** The bands of the aging table are the bands of [aging_order] that have
    a Collectible AR row, in the order of [aging_order]. *)
Lemma aging_summary_keys df :
  Aging_Category <$> compute_aging_summary df
  = filter (fun b => b ∈ collectible_bands df) aging_order.
Proof.
  apply (StronglySorted_unique_strong band_le).
  - intros a b Ha Hb. apply band_le_antisym.
    + rewrite aging_summary_keys_Permutation in Ha.
      rewrite groupby_keys_elem_of in Ha.
      by apply (collectible_bands_in_order df).
    + apply list_elem_of_filter in Hb. tauto.
  - apply aging_summary_keys_sorted.
  - apply StronglySorted_filter, aging_order_sorted.
  - rewrite aging_summary_keys_Permutation.
    apply NoDup_Permutation.
    + apply groupby_keys_NoDup.
    + apply NoDup_filter, aging_order_NoDup.
    + intros b. rewrite groupby_keys_elem_of, list_elem_of_filter.
      split; [|tauto]. intros Hb. split; [done|].
      by apply (collectible_bands_in_order df).
Qed.

Lemma calculate_ar_metrics_Ok df m t :
  calculate_ar_metrics df = Ok (m, t) →
  compute_metrics df = Ok m ∧ t = compute_aging_summary df.
Proof.
  unfold calculate_ar_metrics. destruct (compute_metrics df) as [m'|e]; simpl.
  - by intros [= -> ->].
  - discriminate.
Qed.





Lemma filter_fmap_comm {A B} (f : A → B) (P : B → Prop)
    `{∀ y, Decision (P y)} (l : list A) :
  filter P (f <$> l) = f <$> filter (fun x => P (f x)) l.
Proof.
  induction l as [|x l IH]; [done|].
  rewrite fmap_cons, !filter_cons. case_decide; by rewrite ?fmap_cons, IH.
Qed.

(** Every row of the aging table is a band with its rounded total and the
    count of its amounts. *)
Lemma aging_summary_entry df e :
  e ∈ compute_aging_summary df →
  e = mkAging (Aging_Category e)
        (round2 (series_sum (band_amounts df (Aging_Category e))))
        (series_count (band_amounts df (Aging_Category e))).
Proof.
  unfold compute_aging_summary, sort_by_Order, aging_groups. cbv zeta.
  rewrite merge_sort_Permutation.
  intros (e0 & -> & He0)%list_elem_of_fmap.
  unfold groupby_agg in He0.
  apply list_elem_of_fmap in He0 as (k & -> & _). simpl.
  unfold band_amounts.
  rewrite (filter_fmap_comm _ (fun kr => kr.1 = k)), <- list_fmap_compose.
  done.
Qed.

Lemma aging_summary_band_present df b :
  (∃ e, e ∈ compute_aging_summary df ∧ Aging_Category e = b) ↔
  (∃ r, r ∈ df ∧ Category r = CollectibleAR ∧
        categorize_aging (Days_Past_Due r) = b).
Proof.
  transitivity (b ∈ Aging_Category <$> compute_aging_summary df).
  { rewrite list_elem_of_fmap. split.
    - intros (e & He & <-). eauto.
    - intros (e & -> & He). eauto. }
  rewrite aging_summary_keys, list_elem_of_filter.
  unfold collectible_bands, where_Category.
  rewrite list_elem_of_fmap. split.
  - intros [(r & -> & [Hc Hr]%list_elem_of_filter) _]. eauto.
  - intros (r & Hr & Hc & <-). split.
    + exists r. split; [done|]. by apply list_elem_of_filter.
    + apply categorize_aging_in_order.
Qed.

(** With that single invoice the table has the one row On Time; the
    other four bands are not in it. *)
Lemma aging_table_omits_empty_bands : ¬ emits_every_band one_on_time.
Proof.
  intros H.
  destruct (calculate_ar_metrics one_on_time) as [[m t]|] eqn:E;
    [|by vm_compute in E].
  destruct (H m t E "Over 90 Days Past Due") as (e & He & Hb & _).
  { unfold aging_order. set_solver. }
  apply calculate_ar_metrics_Ok in E as [_ ->].
  assert (Hin : "Over 90 Days Past Due"
                ∈ Aging_Category <$> compute_aging_summary one_on_time).
  { rewrite <- Hb. by apply list_elem_of_fmap_2. }
  rewrite aging_summary_keys in Hin. revert Hin.
  apply (bool_decide_eq_false_1 _). by vm_compute.
Qed.

(** C9, amended. The aging table has a row for a band exactly when some
    Collectible AR record falls in that band; the invoice count of the row
    is the number of these records that have an amount.  A band without
    records has no row. *)
Theorem aging_table_bands_present df m t b :
  calculate_ar_metrics df = Ok (m, t) →
  ((∃ e, e ∈ t ∧ Aging_Category e = b) ↔
   (∃ r, r ∈ df ∧ Category r = CollectibleAR ∧
         categorize_aging (Days_Past_Due r) = b)) ∧
  (∀ e, e ∈ t → Aging_Category e = b →
     Invoice_Count e = series_count (band_amounts df b)).
Proof.
  intros [_ ->]%calculate_ar_metrics_Ok. split.
  - apply aging_summary_band_present.
  - intros e He <-. apply aging_summary_entry in He.
    by rewrite He at 1.
Qed.

Example one_on_time_classified :
  categorize_invoices default_config (calculate_days_past_due 20148 one_on_time)
  = one_on_time.
Proof. reflexivity. Qed.

(** Grouping yields the bands in the lexicographic order of their labels,
    which is not the order of the report. *)
Example groupby_keys_lexicographic :
  groupby_keys (categorize_aging <$> [0; 95; 12; 95; 40])
  = ["1-30 Days Past Due"; "31-60 Days Past Due"; "On Time";
     "Over 90 Days Past Due"].
Proof. by vm_compute. Qed.

(** ** Sums of amounts *)

Local Open Scope Q_scope.

Lemma series_sum_cons a l :
  series_sum (a :: l) == cell_value a + series_sum l.
Proof.
  destruct a as [| |q].
  - change (series_sum l == 0 + series_sum l). lra.
  - change (series_sum l == 0 + series_sum l). lra.
  - reflexivity.
Qed.

Lemma Qsum_cons x l : Qsum (x :: l) = x + Qsum l.
Proof. reflexivity. Qed.

Lemma Qsum_fmap_plus {A} (f g : A → Q) (l : list A) :
  Qsum ((fun k => f k + g k) <$> l) == Qsum (f <$> l) + Qsum (g <$> l).
Proof.
  induction l as [|k l IH]; [reflexivity|].
  rewrite !fmap_cons, !Qsum_cons, IH. lra.
Qed.

Lemma Qsum_fmap_ext {A} (f g : A → Q) (l : list A) :
  (∀ k, f k == g k) → Qsum (f <$> l) == Qsum (g <$> l).
Proof.
  intros Hfg. induction l as [|k l IH]; [reflexivity|].
  by rewrite !fmap_cons, !Qsum_cons, IH, Hfg.
Qed.

Lemma Qsum_Permutation (l1 l2 : list Q) : l1 ≡ₚ l2 → Qsum l1 == Qsum l2.
Proof.
  induction 1 as [|x l1 l2 _ IH|x y l|l1 l2 l3 _ IH1 _ IH2];
    rewrite ?Qsum_cons.
  - reflexivity.
  - by rewrite IH.
  - lra.
  - by rewrite IH1.
Qed.

Section indicator.
Context `{EqDecision K} (k0 : K) (v : Q).

Lemma Qsum_indicator_notin (ks : list K) :
  k0 ∉ ks →
  Qsum ((fun k => if decide (k0 = k) then v else 0) <$> ks) == 0.
Proof.
  induction ks as [|k ks IH]; intros Hk; [reflexivity|].
  apply not_elem_of_cons in Hk as [Hne Hk].
  rewrite fmap_cons, Qsum_cons, decide_False by done.
  rewrite IH by done. lra.
Qed.

Lemma Qsum_indicator (ks : list K) :
  NoDup ks → k0 ∈ ks →
  Qsum ((fun k => if decide (k0 = k) then v else 0) <$> ks) == v.
Proof.
  induction 1 as [|k ks Hk Hnd IH]; intros Hin; [by apply elem_of_nil in Hin|].
  rewrite fmap_cons, Qsum_cons.
  destruct (decide (k0 = k)) as [Heq|Hne].
  - subst k. rewrite Qsum_indicator_notin by done. lra.
  - apply elem_of_cons in Hin as [?|Hin]; [done|].
    rewrite IH by done. lra.
Qed.

End indicator.

Lemma group_sum_cons k0 a rows k :
  group_sum ((k0, a) :: rows) k
  == (if decide (k0 = k) then cell_value a else 0) + group_sum rows k.
Proof.
  unfold group_sum. rewrite filter_cons. simpl.
  destruct (decide (k0 = k)).
  - rewrite fmap_cons. apply series_sum_cons.
  - lra.
Qed.

(** The groups partition the rows: over keys without repetition that
    cover the key column, the group sums add up to the sum of the
    column. *)
Lemma group_sums_total (ks : list string) rows :
  NoDup ks →
  (∀ k, k ∈ fst <$> rows → k ∈ ks) →
  Qsum (group_sum rows <$> ks) == series_sum (snd <$> rows).
Proof.
  intros Hnd. induction rows as [|[k0 a] rows IH]; intros Hcov.
  - clear. induction ks as [|k ks IH]; [reflexivity|].
    rewrite fmap_cons, Qsum_cons, IH. reflexivity.
  - rewrite (Qsum_fmap_ext _ _ _ (group_sum_cons k0 a rows)).
    rewrite Qsum_fmap_plus, Qsum_indicator, IH.
    + rewrite fmap_cons. simpl. by rewrite series_sum_cons.
    + intros k Hk. apply Hcov. rewrite fmap_cons. by right.
    + done.
    + apply Hcov. rewrite fmap_cons. by left.
Qed.

(** *** Rounding to two decimals *)

Lemma rint_err q : Qabs (inject_Z (rint q) - q) <= 1 # 2.
Proof.
  apply Qabs_Qle_condition. unfold rint.
  pose proof (Qfloor_le q) as Hlo. pose proof (Qlt_floor q) as Hhi.
  rewrite inject_Z_plus in Hhi. change (inject_Z 1) with 1 in Hhi.
  destruct (Qcompare_spec (q - inject_Z (Qfloor q)) (1 # 2)) as [He|Hl|Hg].
  - destruct (Z.even (Qfloor q)).
    + lra.
    + rewrite inject_Z_plus. change (inject_Z 1) with 1. lra.
  - lra.
  - rewrite inject_Z_plus. change (inject_Z 1) with 1. lra.
Qed.

Lemma round2_err q : Qabs (round2 q - q) <= 1 # 200.
Proof.
  pose proof (rint_err (q * 100)) as H.
  apply Qabs_Qle_condition in H. apply Qabs_Qle_condition.
  unfold round2, Qdiv. change (/ 100) with (1 # 100).
  lra.
Qed.

Lemma Qsum_round2_err (l : list Q) :
  Qabs (Qsum (round2 <$> l) - Qsum l)
  <= inject_Z (Z.of_nat (length l)) * (1 # 200).
Proof.
  induction l as [|x l IH].
  - apply Qabs_Qle_condition. vm_compute. intuition discriminate.
  - rewrite fmap_cons, !Qsum_cons.
    change (length (x :: l)) with (S (length l)).
    rewrite Nat2Z.inj_succ. unfold Z.succ. rewrite inject_Z_plus.
    change (inject_Z 1) with 1.
    pose proof (round2_err x) as Hx.
    apply Qabs_Qle_condition in Hx, IH. apply Qabs_Qle_condition.
    lra.
Qed.

(** The column of totals of the aging table, up to the order of its rows. *)
Lemma aging_summary_totals df :
  Total_Amount <$> compute_aging_summary df
  ≡ₚ round2 <$>
       (group_sum
          ((fun r => (categorize_aging (Days_Past_Due r), Amount r))
             <$> where_Category CollectibleAR df)
        <$> groupby_keys (collectible_bands df)).
Proof.
  unfold compute_aging_summary, sort_by_Order, aging_groups. cbv zeta.
  rewrite merge_sort_Permutation. unfold groupby_agg, collectible_bands.
  by rewrite <- !list_fmap_compose.
Qed.

Lemma aging_summary_length df : (length (compute_aging_summary df) ≤ 5)%nat.
Proof.
  rewrite <- (length_fmap Aging_Category), aging_summary_keys.
  etrans; [apply length_filter|]. done.
Qed.

Local Close Scope Q_scope.

(** C8. The totals of the bands of the aging table add up to the
    Collectible AR amount of the metrics, up to the rounding of each band
    total to two decimals: half a cent for each band of the table, so at
    most 0.025 in all. *)
Theorem aging_totals_match_collectible_ar df m t :
  calculate_ar_metrics df = Ok (m, t) →
  (Qabs (Qsum (Total_Amount <$> t) - Metrics.collectible_ar m)
   <= inject_Z (Z.of_nat (length t)) * (1 # 200))%Q ∧
  (length t ≤ 5)%nat.
Proof.
  intros [Hm ->]%calculate_ar_metrics_Ok. split; [|apply aging_summary_length].
  assert (Metrics.collectible_ar m
          = series_sum (Amount <$> where_Category CollectibleAR df)) as ->.
  { unfold compute_metrics in Hm.
    destruct (py_truediv _ _); simpl in Hm; [|discriminate].
    by injection Hm as <-. }
  set (rows := (fun r => (categorize_aging (Days_Past_Due r), Amount r))
                 <$> where_Category CollectibleAR df).
  assert (Hsum : (Qsum (group_sum rows <$> groupby_keys (collectible_bands df))
                  == series_sum (Amount <$> where_Category CollectibleAR df))%Q).
  { rewrite group_sums_total.
    - unfold rows. by rewrite <- list_fmap_compose.
    - apply groupby_keys_NoDup.
    - intros k Hk. apply groupby_keys_elem_of.
      unfold rows in Hk. by rewrite <- list_fmap_compose in Hk. }
  rewrite (Qsum_Permutation _ _ (aging_summary_totals df)).
  fold rows. rewrite <- Hsum.
  rewrite <- (length_fmap Total_Amount), (aging_summary_totals df).
  rewrite length_fmap. apply Qsum_round2_err.
Qed.

Example sample_categories :
  (fun r => (Days_Past_Due r, Category r)) <$> sample_classified
  = [(59, Excluded); (59, Excluded); (45, Paid); (151, CollectibleAR);
     (18, CollectibleAR); (0, CollectibleAR); (18, CollectibleAR)].
Proof. reflexivity. Qed.

Example sample_aging_rows :
  (fun e => (Aging_Category e, Invoice_Count e)) <$> sample_aging
  = [("On Time", 1%nat); ("1-30 Days Past Due", 1%nat);
     ("Over 90 Days Past Due", 1%nat)].
Proof. reflexivity. Qed.

(** C4 on the second record of [sample_classified]. *)
Lemma category_reason_invariant_witness :
  let r' := mkRow (DocInt 1001) "Beta" (Some (20058 * ns_per_day))
              (Some (20089 * ns_per_day)) None (AmountNum 50) 59 Excluded
              "Remaining wire fees - excluded from AR" in
  r' ∈ categorize_invoices default_config (calculate_days_past_due 20148 sample) ∧
  Category r' ≠ Unknown ∧
  (Category r' = Paid ∨ Category r' = CollectibleAR ∨ Category r' = Excluded) ∧
  (Exclusion_Reason r' ≠ "" ↔ Category r' = Excluded) ∧
  (Category r' ≠ Excluded → Exclusion_Reason r' = "").
Proof.
  intros r'.
  assert (Hin : r' ∈ categorize_invoices default_config
                       (calculate_days_past_due 20148 sample)).
  { apply (list_elem_of_lookup_2 _ 1%nat). reflexivity. }
  split; [exact Hin|].
  apply (category_reason_invariant default_config
           (calculate_days_past_due 20148 sample) r');
    [discriminate|discriminate|exact Hin].
Defined.




(** C8 on [sample_classified]: the three band totals against 2423.706. *)
Lemma aging_totals_match_collectible_ar_witness :
  calculate_ar_metrics sample_classified = Ok (sample_metrics, sample_aging) ∧
  (Qabs (Qsum (Total_Amount <$> sample_aging)
         - Metrics.collectible_ar sample_metrics)
   <= inject_Z (Z.of_nat (length sample_aging)) * (1 # 200))%Q.
Proof.
  split; [reflexivity|].
  apply (aging_totals_match_collectible_ar sample_classified sample_metrics
           sample_aging eq_refl).
Defined.

(** C9, amended, on [sample_classified]: no row for the 31-60 band, in
    which no record falls. *)
Lemma aging_table_bands_present_witness :
  calculate_ar_metrics sample_classified = Ok (sample_metrics, sample_aging) ∧
  ((∃ e, e ∈ sample_aging ∧ Aging_Category e = "31-60 Days Past Due") ↔
   (∃ r, r ∈ sample_classified ∧ Category r = CollectibleAR ∧
         categorize_aging (Days_Past_Due r) = "31-60 Days Past Due")).
Proof.
  split; [reflexivity|].
  apply (aging_table_bands_present sample_classified sample_metrics
           sample_aging "31-60 Days Past Due" eq_refl).
Defined.

(** * Further properties of the analyzer *)

(** ** categorize_invoices: the counters, and the shape of the pass *)

Lemma categorize_step_snd cfg (df : dataframe) c idx r :
  let c' := snd (categorize_step cfg (df, c) (idx, r)) in
  let hit cat :=
    if decide (Category (step_row cfg r) = cat) then 1%nat else 0%nat in
  paid_count c' = (paid_count c + hit Paid)%nat ∧
  collectible_count c' = (collectible_count c + hit CollectibleAR)%nat ∧
  (wire_fee_count c' + india_withholding_count c'
   = wire_fee_count c + india_withholding_count c + hit Excluded)%nat.
Proof.
  unfold categorize_step, step_row, mkCounts. cbv zeta.
  destruct (notna (Payment_Date r)); [simpl; lia|].
  destruct (bool_decide _); [simpl; lia|].
  destruct (py_le _ _); simpl; lia.
Qed.

Lemma categorize_fold_counts cfg (l : dataframe) (idxs : list nat)
    (df : dataframe) c :
  length idxs = length l →
  let c' := snd (foldl (categorize_step cfg) (df, c) (zip idxs l)) in
  let n cat := length (filter (fun r => Category (step_row cfg r) = cat) l) in
  paid_count c' = (paid_count c + n Paid)%nat ∧
  collectible_count c' = (collectible_count c + n CollectibleAR)%nat ∧
  (wire_fee_count c' + india_withholding_count c'
   = wire_fee_count c + india_withholding_count c + n Excluded)%nat.
Proof.
  revert idxs df c. induction l as [|r l IH]; intros [|i idxs] df c Hlen;
    try discriminate; cbv zeta.
  { simpl. lia. }
  cbn [zip_with foldl].
  pose proof (categorize_step_snd cfg df c i r) as Hs. cbv zeta in Hs.
  destruct (categorize_step cfg (df, c) (i, r)) as [df1 c1].
  simpl in Hs. destruct Hs as (Hp & Hc & He).
  injection Hlen as Hlen.
  specialize (IH idxs df1 c1 Hlen). cbv zeta in IH.
  destruct IH as (IHp & IHc & IHe).
  rewrite IHp, IHc, IHe, Hp, Hc, He, !filter_cons.
  repeat case_decide; simpl; lia.
Qed.

Lemma where_Category_fmap_length (f : row → row) c (df : dataframe) :
  length (where_Category c (f <$> df))
  = length (filter (fun r => Category (f r) = c) df).
Proof.
  unfold where_Category.
  by rewrite (filter_fmap_comm f (fun r => Category r = c)), length_fmap.
Qed.

Lemma annotate_step_row cfg r :
  Category (step_row cfg (set_Exclusion_Reason "" (set_Category Unknown r)))
  = Category (annotate cfg r).
Proof. reflexivity. Qed.

(** The categories partition any frame in which no row is Unknown. *)
Lemma where_Category_partition (df : dataframe) :
  Forall (fun r => Category r ≠ Unknown) df →
  (length (where_Category Paid df) + length (where_Category CollectibleAR df)
   + length (where_Category Excluded df) = length df)%nat.
Proof.
  unfold where_Category. induction 1 as [|r df Hr _ IH]; [done|].
  rewrite !filter_cons. destruct (Category r) eqn:E; try done;
    repeat case_decide; try congruence; simpl; lia.
Qed.

Lemma categorize_invoices_no_Unknown cfg (df : dataframe) :
  Forall (fun r => Category r ≠ Unknown) (categorize_invoices cfg df).
Proof.
  rewrite categorize_invoices_map, Forall_fmap. apply Forall_forall.
  intros r _. simpl.
  destruct (annotate_cases cfg r) as [[-> _]|[[-> _]|[[-> _]|[-> _]]]]; done.
Qed.

Lemma categorize_invoices_length cfg (df : dataframe) :
  length (categorize_invoices cfg df) = length df.
Proof. by rewrite categorize_invoices_map, length_fmap. Qed.

(** X1. The counters that [categorize_invoices] prints are the numbers of rows
    it has marked Paid and Collectible AR, the two exclusion counters add
    up to the number of rows marked Excluded, and the four of them to the
    number of rows. *)
Theorem categorize_counters_agree cfg (df : dataframe) :
  let out := fst (categorize_loop cfg df) in
  let c := snd (categorize_loop cfg df) in
  paid_count c = length (where_Category Paid out) ∧
  collectible_count c = length (where_Category CollectibleAR out) ∧
  (wire_fee_count c + india_withholding_count c)%nat
    = length (where_Category Excluded out) ∧
  (paid_count c + collectible_count c + wire_fee_count c
   + india_withholding_count c)%nat = length df.
Proof.
  cbv zeta.
  change (fst (categorize_loop cfg df)) with (categorize_invoices cfg df).
  pose proof (where_Category_partition _ (categorize_invoices_no_Unknown cfg df))
    as Hpart.
  rewrite categorize_invoices_length in Hpart.
  assert (Hn : ∀ cat,
    length (filter (fun r => Category (step_row cfg r) = cat) (init_columns df))
    = length (where_Category cat (categorize_invoices cfg df))).
  { intros cat. rewrite categorize_invoices_map, where_Category_fmap_length.
    unfold init_columns.
    by rewrite (filter_fmap_comm _ (fun r => Category (step_row cfg r) = cat)),
      length_fmap. }
  pose proof (categorize_fold_counts cfg (init_columns df)
                (seq 0 (length (init_columns df))) (init_columns df)
                (mkCounts 0 0 0 0)) as H.
  cbv zeta in H. destruct H as (Hp & Hc & He); [by rewrite length_seq|].
  rewrite !Hn in Hp, Hc, He.
  unfold categorize_loop, iterrows. cbv zeta.
  set (c' := snd (foldl _ _ _)) in *. clearbody c'.
  unfold mkCounts in Hp, Hc, He. simpl in Hp, Hc, He.
  split_and!; lia.
Qed.

(** X2. Running the pass again changes nothing, and what the Category and
    Exclusion Reason columns held before the pass is of no effect. *)
Theorem categorize_invoices_idempotent cfg (df : dataframe) :
  categorize_invoices cfg (categorize_invoices cfg df)
  = categorize_invoices cfg df ∧
  ∀ c s, categorize_invoices cfg
           ((fun r => set_Exclusion_Reason s (set_Category c r)) <$> df)
         = categorize_invoices cfg df.
Proof.
  rewrite !categorize_invoices_map. split.
  - rewrite <- list_fmap_compose. apply list_fmap_ext.
    intros _ r _. unfold annotate, step_row. simpl.
    destruct (notna (Payment_Date r)) eqn:Hp; simpl; rewrite ?Hp; [done|].
    destruct (bool_decide _) eqn:Hd; simpl; rewrite ?Hp, ?Hd; [done|].
    destruct (py_le _ _) eqn:Ha; simpl; by rewrite ?Hp, ?Hd, ?Ha.
  - intros c s. rewrite categorize_invoices_map, <- list_fmap_compose.
    by apply list_fmap_ext.
Qed.

(** X3. A record is classified on its own: the pass over two frames put end
    to end is the two passes put end to end. *)
Theorem categorize_invoices_app cfg (df1 df2 : dataframe) :
  categorize_invoices cfg (df1 ++ df2)
  = categorize_invoices cfg df1 ++ categorize_invoices cfg df2.
Proof. rewrite !categorize_invoices_map. apply fmap_app. Qed.

Lemma category_of_input cfg (df : dataframe) i r r' :
  df !! i = Some r →
  categorize_invoices cfg df !! i = Some r' →
  let withheld := listed (india_withholding_docs cfg) (Document_Number r) in
  let small := amount_at_most (Amount r) (wire_fee_threshold cfg) in
  (Category r' = Paid ↔ is_Some (Payment_Date r)) ∧
  (Category r' = Excluded ↔ Payment_Date r = None ∧ (withheld ∨ small)) ∧
  (Category r' = CollectibleAR ↔
     Payment_Date r = None ∧ ¬ withheld ∧ ¬ small).
Proof.
  intros Hr Hr'. rewrite categorize_invoices_lookup, Hr in Hr'.
  injection Hr' as <-. cbv zeta. rewrite listed_py_str.
  destruct (Payment_Date r) as [p|] eqn:Hp.
  - destruct (annotate_paid cfg r) as [-> _]; [by rewrite Hp|].
    split_and!; split; try done; try (intros [? _]; done); eauto.
  - destruct (decide (py_str (Document_Number r) ∈ india_withholding_docs cfg))
      as [Hd|Hd].
    + destruct (annotate_withholding cfg r Hp Hd) as [-> _].
      split_and!; split; try done; try (by intros [? ?]); try tauto.
    + destruct (decide (py_le (py_or0 (Amount r)) (wire_fee_threshold cfg) = true))
        as [Ha|Ha].
      * apply py_le_or0_spec in Ha.
        destruct (annotate_wire_fee cfg r Hp Hd Ha) as [-> _].
        split_and!; split; try done; try (by intros [? ?]); try tauto.
      * rewrite py_le_or0_spec in Ha.
        destruct (annotate_collectible cfg r Hp Hd Ha) as [-> _].
        split_and!; split; try done; try (by intros [? ?]); try tauto.
Qed.

(** X4. What a category in the output says about the input record, read
    cell by cell: Paid exactly for a record with a payment date; Excluded
    exactly for an unpaid one whose document cell is found in the list
    (an integer by its numeral, a number of a float column by its numeral
    followed by [.0]) or whose amount is at most the threshold;
    Collectible AR exactly for the other unpaid ones. *)
Theorem category_characterisation cfg (df : dataframe) i r r' :
  df !! i = Some r →
  categorize_invoices cfg df !! i = Some r' →
  let withheld := listed (india_withholding_docs cfg) (Document_Number r) in
  let small := amount_at_most (Amount r) (wire_fee_threshold cfg) in
  (Category r' = Paid ↔ is_Some (Payment_Date r)) ∧
  (Category r' = Excluded ↔ Payment_Date r = None ∧ (withheld ∨ small)) ∧
  (Category r' = CollectibleAR ↔
     Payment_Date r = None ∧ ¬ withheld ∧ ¬ small).
Proof. apply category_of_input. Qed.

(** A witness of [category_characterisation]: the fourth record of
    [sample] and what the pass makes of it. *)
Lemma category_characterisation_witness :
  let r := mkRow (DocInt 1003) "Delta" (Some (19967 * ns_per_day))
             (Some (19997 * ns_per_day)) None (AmountNum 2000) 0 Unknown "" in
  let r' := set_Category CollectibleAR r in
  sample !! 3%nat = Some r ∧
  categorize_invoices default_config sample !! 3%nat = Some r' ∧
  (Category r' = Paid ↔ is_Some (Payment_Date r)).
Proof.
  intros r r'. split; [reflexivity|]. split; [reflexivity|].
  apply (category_characterisation default_config sample 3 r r');
    reflexivity.
Defined.

(** ** calculate_days_past_due *)

Lemma div_nonpos_iff x d : 0 < d → x / d ≤ 0 ↔ x < d.
Proof.
  intros Hd. pose proof (Z.div_mod x d). pose proof (Z.mod_pos_bound x d).
  split; intros; nia.
Qed.

(** X5. The pass writes the Days Past Due column only: number, order and the
    other eight fields of the records are kept, and every value written is
    the one of [days_past_due_calc], never negative. *)
Theorem calculate_days_past_due_frame today (df : dataframe) :
  length (calculate_days_past_due today df) = length df ∧
  Forall2 (fun r r' =>
             Document_Number r' = Document_Number r ∧
             Name r' = Name r ∧
             Invoice_Date r' = Invoice_Date r ∧
             Due_Date r' = Due_Date r ∧
             Payment_Date r' = Payment_Date r ∧
             Amount r' = Amount r ∧
             Category r' = Category r ∧
             Exclusion_Reason r' = Exclusion_Reason r ∧
             Days_Past_Due r' = days_past_due_calc today r ∧
             0 ≤ Days_Past_Due r')
          df (calculate_days_past_due today df).
Proof.
  unfold calculate_days_past_due. split; [apply length_map|].
  apply Forall2_fmap_r, Forall_Forall2_diag, Forall_forall.
  intros r _. simpl. split_and!; try done. apply days_past_due_calc_nonneg.
Qed.

(** X6. A later report date never lowers a record's days past due; for a paid
    record the report date is of no effect, and for an open record that
    is due it adds one day per day. *)
Theorem days_past_due_monotone today1 today2 r :
  today1 ≤ today2 →
  days_past_due_calc today1 r ≤ days_past_due_calc today2 r ∧
  (is_Some (Payment_Date r) →
     days_past_due_calc today1 r = days_past_due_calc today2 r) ∧
  (∀ d, Payment_Date r = None → Due_Date r = Some d → ts_date d ≤ today1 →
     days_past_due_calc today2 r
     = days_past_due_calc today1 r + (today2 - today1)).
Proof.
  intros Hle. unfold days_past_due_calc. split_and!.
  - destruct (Payment_Date r); [done|]. destruct (Due_Date r); lia.
  - by intros [p ->].
  - intros d -> -> Hd. lia.
Qed.

(** X7. When the value is 0: an open record is at 0 exactly until its due day
    is over, and a paid record exactly when it was paid less than a whole
    day after the due time. *)
Theorem days_past_due_zero_iff today r d :
  Due_Date r = Some d →
  (Payment_Date r = None →
     (days_past_due_calc today r = 0 ↔ today ≤ ts_date d)) ∧
  (∀ p, Payment_Date r = Some p →
     (days_past_due_calc today r = 0 ↔ p - d < ns_per_day)).
Proof.
  intros Hd. unfold days_past_due_calc. rewrite Hd. split.
  - intros ->. lia.
  - intros p ->. simpl. rewrite <- (div_nonpos_iff _ _ ns_per_day_pos). lia.
Qed.

(** X8. The two passes write different columns and read neither of them, so
    they can be run in either order; and the days pass can be run again
    with no effect. *)
Theorem passes_commute cfg today (df : dataframe) :
  calculate_days_past_due today (categorize_invoices cfg df)
  = categorize_invoices cfg (calculate_days_past_due today df) ∧
  calculate_days_past_due today (calculate_days_past_due today df)
  = calculate_days_past_due today df.
Proof.
  unfold calculate_days_past_due. rewrite !categorize_invoices_map. split.
  - rewrite <- !list_fmap_compose. apply list_fmap_ext.
    intros _ r _. unfold annotate, step_row, days_past_due_calc. simpl.
    destruct (notna (Payment_Date r)); [done|].
    destruct (bool_decide _); [done|].
    by destruct (py_le _ _).
  - rewrite <- list_fmap_compose. by apply list_fmap_ext.
Qed.

Lemma days_past_due_monotone_witness :
  days_past_due_calc 20148
    (mkRow (DocInt 1003) "Delta" None (Some (19997 * ns_per_day)) None
       (AmountNum 2000) 0 Unknown "")
  ≤ days_past_due_calc 20150
      (mkRow (DocInt 1003) "Delta" None (Some (19997 * ns_per_day)) None
         (AmountNum 2000) 0 Unknown "").
Proof. apply (days_past_due_monotone 20148 20150). lia. Defined.

Lemma days_past_due_zero_iff_witness :
  let r := mkRow (DocInt 1005) "Zeta" None (Some (20148 * ns_per_day)) None
             (AmountNum 300) 0 Unknown "" in
  days_past_due_calc 20148 r = 0 ↔ 20148 ≤ ts_date (20148 * ns_per_day).
Proof.
  intros r.
  apply (proj1 (days_past_due_zero_iff 20148 r (20148 * ns_per_day) eq_refl)).
  reflexivity.
Defined.

(** ** calculate_ar_metrics: the metrics *)

(** What [self.metrics] holds when the computation returns. *)
Lemma compute_metrics_Ok (df : dataframe) m :
  compute_metrics df = Ok m →
  let paid := where_Category Paid df in
  let coll := where_Category CollectibleAR df in
  let excl := where_Category Excluded df in
  (0 < length paid + length coll)%nat ∧
  Metrics.total_payments m = series_sum (Amount <$> paid) ∧
  Metrics.collectible_ar m = series_sum (Amount <$> coll) ∧
  Metrics.excluded_total m = series_sum (Amount <$> excl) ∧
  Metrics.wire_fees m
    = series_sum (Amount <$> where_reason_contains "wire fees" excl) ∧
  Metrics.india_withholding m
    = series_sum (Amount <$> where_reason_contains "India" excl) ∧
  Metrics.paid_count m = length paid ∧
  Metrics.collectible_count m = length coll ∧
  Metrics.excluded_count m = length excl ∧
  Metrics.collection_rate m
    = (inject_Z (Z.of_nat (length paid))
       / inject_Z (Z.of_nat (length paid + length coll)) * 100)%Q ∧
  Metrics.oldest_days m
    = if decide (0 < length coll)%nat
      then series_max (Days_Past_Due <$> coll) else 0.
Proof.
  unfold compute_metrics. cbv zeta.
  destruct (length (where_Category Paid df)
            + length (where_Category CollectibleAR df))%nat as [|n] eqn:E;
    simpl; [discriminate|].
  intros [= <-]. simpl. split_and!; try done. lia.
Qed.

(** X9. The computation returns exactly when some record is Paid or
    Collectible AR; otherwise it raises [ZeroDivisionError], whatever
    else the frame holds. *)
Theorem calculate_ar_metrics_returns_iff (df : dataframe) :
  ((∃ m t, calculate_ar_metrics df = Ok (m, t)) ↔
   (∃ r, r ∈ df ∧ (Category r = Paid ∨ Category r = CollectibleAR))) ∧
  ((∀ r, r ∈ df → Category r ≠ Paid ∧ Category r ≠ CollectibleAR) →
   calculate_ar_metrics df = Raise ZeroDivisionError).
Proof.
  assert (Hnone : (∀ r, r ∈ df → Category r ≠ Paid ∧ Category r ≠ CollectibleAR) →
                  calculate_ar_metrics df = Raise ZeroDivisionError).
  { intros Hall. apply calculate_ar_metrics_zero_denominator.
    unfold where_Category.
    assert (Hnil : ∀ c, c = Paid ∨ c = CollectibleAR →
                        filter (fun r => Category r = c) df = []).
    { intros c Hc. apply elem_of_nil_inv. intros r [Hr Hin]%list_elem_of_filter.
      destruct (Hall r Hin) as [H1 H2]. by destruct Hc as [->| ->]. }
    by rewrite !Hnil by auto. }
  split; [|done]. split.
  - intros (m & t & H). apply calculate_ar_metrics_Ok in H as [Hm _].
    apply compute_metrics_Ok in Hm as [Hpos _].
    destruct (where_Category Paid df) as [|r l] eqn:Ep.
    + destruct (where_Category CollectibleAR df) as [|r l] eqn:Ec;
        [simpl in Hpos; lia|].
      assert (Hr : r ∈ where_Category CollectibleAR df) by (rewrite Ec; left).
      apply list_elem_of_filter in Hr as [? ?]. eauto.
    + assert (Hr : r ∈ where_Category Paid df) by (rewrite Ep; left).
      apply list_elem_of_filter in Hr as [? ?]. eauto.
  - intros (r & Hin & Hc).
    destruct (calculate_ar_metrics df) as [[m t]|e] eqn:E; [eauto|].
    exfalso. unfold calculate_ar_metrics, compute_metrics in E.
    assert (Hpos : (0 < length (where_Category Paid df)
                    + length (where_Category CollectibleAR df))%nat).
    { destruct Hc as [Hc|Hc].
      - assert (Hr : r ∈ where_Category Paid df)
          by (by apply list_elem_of_filter).
        destruct (where_Category Paid df); [by apply elem_of_nil in Hr|].
        simpl. lia.
      - assert (Hr : r ∈ where_Category CollectibleAR df)
          by (by apply list_elem_of_filter).
        destruct (where_Category CollectibleAR df);
          [by apply elem_of_nil in Hr|].
        simpl. lia. }
    destruct (length (where_Category Paid df)
              + length (where_Category CollectibleAR df))%nat; [lia|].
    simpl in E. discriminate.
Qed.

Lemma Qdiv_nat_bounds (a b : nat) :
  (0 < a + b)%nat →
  let q := (inject_Z (Z.of_nat a) / inject_Z (Z.of_nat (a + b)))%Q in
  (0 <= q)%Q ∧ (q <= 1)%Q ∧ ((q == 0)%Q ↔ a = 0%nat) ∧ ((q == 1)%Q ↔ b = 0%nat).
Proof.
  intros Hpos q.
  assert (Ht : (0 < inject_Z (Z.of_nat (a + b)))%Q).
  { rewrite <- (Zlt_Qlt 0). lia. }
  assert (Ha : (0 <= inject_Z (Z.of_nat a))%Q).
  { rewrite <- (Zle_Qle 0). lia. }
  assert (Hab : (inject_Z (Z.of_nat a) <= inject_Z (Z.of_nat (a + b)))%Q).
  { rewrite <- Zle_Qle. lia. }
  assert (Hq : (q * inject_Z (Z.of_nat (a + b)) == inject_Z (Z.of_nat a))%Q).
  { unfold q. field. intros H0. rewrite H0 in Ht. by apply Qlt_irrefl in Ht. }
  assert (Hq0 : (0 <= q)%Q).
  { unfold q. apply Qle_shift_div_l; [done|]. by rewrite Qmult_0_l. }
  assert (Hq1 : (q <= 1)%Q).
  { unfold q. apply Qle_shift_div_r; [done|]. by rewrite Qmult_1_l. }
  split_and!; try done.
  - split.
    + intros H0. rewrite H0, Qmult_0_l in Hq.
      unfold Qeq in Hq. simpl in Hq. lia.
    + intros ->. unfold q. simpl. unfold Qdiv. by rewrite Qmult_0_l.
  - split.
    + intros H1. rewrite H1, Qmult_1_l in Hq.
      unfold Qeq in Hq. simpl in Hq. lia.
    + intros ->. unfold q. rewrite Nat.add_0_r. field.
      intros H0. rewrite Nat.add_0_r in Ht. rewrite H0 in Ht.
      by apply Qlt_irrefl in Ht.
Qed.

(** X10. The collection rate is a percentage: between 0 and 100, 0 exactly when
    nothing is Paid and 100 exactly when nothing is Collectible AR. *)
Theorem collection_rate_bounds (df : dataframe) m t :
  calculate_ar_metrics df = Ok (m, t) →
  (0 <= Metrics.collection_rate m)%Q ∧
  (Metrics.collection_rate m <= 100)%Q ∧
  ((Metrics.collection_rate m == 0)%Q ↔ Metrics.paid_count m = 0%nat) ∧
  ((Metrics.collection_rate m == 100)%Q ↔ Metrics.collectible_count m = 0%nat).
Proof.
  intros [Hm _]%calculate_ar_metrics_Ok.
  apply compute_metrics_Ok in Hm. cbv zeta in Hm.
  destruct Hm as (Hpos & _ & _ & _ & _ & _ & -> & -> & _ & -> & _).
  destruct (Qdiv_nat_bounds _ _ Hpos) as (H0 & H1 & Hz & Ho).
  cbv zeta in *. split_and!.
  - lra.
  - lra.
  - rewrite <- Hz. split; intros; lra.
  - rewrite <- Ho. split; intros; lra.
Qed.

(** X11. After classification the three counts of the metrics add up to the
    number of records. *)
Theorem metrics_counts_partition cfg (df : dataframe) m t :
  calculate_ar_metrics (categorize_invoices cfg df) = Ok (m, t) →
  (Metrics.paid_count m + Metrics.collectible_count m
   + Metrics.excluded_count m)%nat = length df.
Proof.
  intros [Hm _]%calculate_ar_metrics_Ok.
  apply compute_metrics_Ok in Hm. cbv zeta in Hm.
  destruct Hm as (_ & _ & _ & _ & _ & _ & -> & -> & -> & _).
  rewrite where_Category_partition by apply categorize_invoices_no_Unknown.
  apply categorize_invoices_length.
Qed.

Lemma series_max_spec x (l : list Z) :
  Forall (fun y => y ≤ series_max (x :: l)) (x :: l) ∧
  series_max (x :: l) ∈ x :: l.
Proof.
  simpl. revert x. induction l as [|y l IH]; intros x; simpl.
  - split; [by constructor|left].
  - destruct (IH (Z.max x y)) as [Hall Hin]. split.
    + inversion Hall as [|? ? Hx Hl]; subst.
      repeat constructor; [lia|lia|done].
    + apply elem_of_cons in Hin as [Hin|Hin].
      * rewrite Hin. destruct (Z.max_spec x y) as [[_ ->]|[_ ->]];
          [right; left|left].
      * right. by right.
Qed.

Lemma oldest_days_max (df : dataframe) m t :
  calculate_ar_metrics df = Ok (m, t) →
  (∀ r, r ∈ df → Category r = CollectibleAR →
        Days_Past_Due r ≤ Metrics.oldest_days m) ∧
  ((∃ r, r ∈ df ∧ Category r = CollectibleAR) →
   ∃ r, r ∈ df ∧ Category r = CollectibleAR ∧
        Days_Past_Due r = Metrics.oldest_days m) ∧
  ((∀ r, r ∈ df → Category r ≠ CollectibleAR) → Metrics.oldest_days m = 0).
Proof.
  intros [Hm _]%calculate_ar_metrics_Ok.
  apply compute_metrics_Ok in Hm. cbv zeta in Hm.
  destruct Hm as (_ & _ & _ & _ & _ & _ & _ & _ & _ & _ & ->).
  destruct (where_Category CollectibleAR df) as [|r0 l] eqn:E.
  - simpl. split_and!.
    + intros r Hin Hc. exfalso.
      by apply (filter_nil_not_elem_of _ _ r E).
    + intros (r & Hin & Hc). exfalso.
      by apply (filter_nil_not_elem_of _ _ r E).
    + done.
  - rewrite decide_True by (simpl; lia). rewrite fmap_cons.
    destruct (series_max_spec (Days_Past_Due r0) (Days_Past_Due <$> l))
      as [Hall Hin].
    rewrite <- fmap_cons, <- E in Hall, Hin |- *.
    split_and!.
    + intros r Hr Hc. rewrite Forall_fmap, Forall_forall in Hall.
      apply Hall. by apply list_elem_of_filter.
    + intros _. apply list_elem_of_fmap in Hin as (r & Hd & Hr).
      apply list_elem_of_filter in Hr as [Hc Hr]. eauto.
    + intros Hno. exfalso. apply (Hno r0).
      * assert (Hr : r0 ∈ where_Category CollectibleAR df)
          by (rewrite E; left).
        by apply list_elem_of_filter in Hr as [_ ?].
      * assert (Hr : r0 ∈ where_Category CollectibleAR df)
          by (rewrite E; left).
        by apply list_elem_of_filter in Hr as [? _].
Qed.

(** X12. [oldest_days] is the largest Days Past Due among the Collectible AR
    records: none of them exceeds it and one of them has it; without such
    a record it is 0. *)
Theorem oldest_days_is_max (df : dataframe) m t :
  calculate_ar_metrics df = Ok (m, t) →
  (∀ r, r ∈ df → Category r = CollectibleAR →
        Days_Past_Due r ≤ Metrics.oldest_days m) ∧
  ((∃ r, r ∈ df ∧ Category r = CollectibleAR) →
   ∃ r, r ∈ df ∧ Category r = CollectibleAR ∧
        Days_Past_Due r = Metrics.oldest_days m) ∧
  ((∀ r, r ∈ df → Category r ≠ CollectibleAR) → Metrics.oldest_days m = 0).
Proof. apply oldest_days_max. Qed.

Lemma collection_rate_bounds_witness :
  calculate_ar_metrics sample_classified = Ok (sample_metrics, sample_aging) ∧
  (Metrics.collection_rate sample_metrics <= 100)%Q.
Proof.
  split; [reflexivity|].
  apply (collection_rate_bounds sample_classified sample_metrics sample_aging
           eq_refl).
Defined.

Lemma metrics_counts_partition_witness :
  (Metrics.paid_count sample_metrics + Metrics.collectible_count sample_metrics
   + Metrics.excluded_count sample_metrics)%nat
  = length (calculate_days_past_due 20148 sample).
Proof.
  apply (metrics_counts_partition default_config
           (calculate_days_past_due 20148 sample) sample_metrics sample_aging).
  reflexivity.
Defined.

Lemma oldest_days_is_max_witness :
  calculate_ar_metrics sample_classified = Ok (sample_metrics, sample_aging) ∧
  ∀ r, r ∈ sample_classified → Category r = CollectibleAR →
       Days_Past_Due r ≤ Metrics.oldest_days sample_metrics.
Proof.
  split; [reflexivity|].
  apply (oldest_days_is_max sample_classified sample_metrics sample_aging
           eq_refl).
Defined.

(** ** The rows behind the totals of the metrics *)

(** In a frame without Unknown rows the three selections by category are
    the frame, row for row. *)
Lemma where_Category_Permutation (df : dataframe) :
  Forall (fun r => Category r ≠ Unknown) df →
  where_Category Paid df ++ where_Category CollectibleAR df
    ++ where_Category Excluded df ≡ₚ df.
Proof.
  unfold where_Category. induction 1 as [|r df Hr _ IH]; [done|].
  rewrite !filter_cons.
  destruct (Category r) eqn:E; try done;
    repeat case_decide; try congruence.
  - simpl. by rewrite IH.
  - rewrite <- app_comm_cons, <- Permutation_middle. by rewrite IH.
  - rewrite app_assoc, <- Permutation_middle, <- app_assoc. by rewrite IH.
Qed.

(** X13. After classification the three totals of the metrics are the
    sums of the Amount column over three selections of records that
    together are the records, each once: no record is left out of the
    totals and none enters two of them. *)
Theorem metrics_totals_partition cfg (df : dataframe) m t :
  calculate_ar_metrics (categorize_invoices cfg df) = Ok (m, t) →
  let out := categorize_invoices cfg df in
  where_Category Paid out ++ where_Category CollectibleAR out
    ++ where_Category Excluded out ≡ₚ out ∧
  Metrics.total_payments m = series_sum (Amount <$> where_Category Paid out) ∧
  Metrics.collectible_ar m
    = series_sum (Amount <$> where_Category CollectibleAR out) ∧
  Metrics.excluded_total m
    = series_sum (Amount <$> where_Category Excluded out).
Proof.
  intros [Hm _]%calculate_ar_metrics_Ok.
  apply compute_metrics_Ok in Hm. cbv zeta in Hm.
  destruct Hm as (_ & -> & -> & -> & _). cbv zeta. split_and!; try done.
  apply where_Category_Permutation, categorize_invoices_no_Unknown.
Qed.

Lemma filter_split_Permutation (P1 P2 : row → Prop)
    `{∀ r, Decision (P1 r), ∀ r, Decision (P2 r)} (l : dataframe) :
  Forall (fun r => (P1 r ∧ ¬ P2 r) ∨ (P2 r ∧ ¬ P1 r)) l →
  filter P1 l ++ filter P2 l ≡ₚ l.
Proof.
  induction 1 as [|r l Hr _ IH]; [done|].
  rewrite !filter_cons. destruct Hr as [[H1 H2]|[H2 H1]].
  - rewrite decide_True, decide_False by done. simpl. by rewrite IH.
  - rewrite decide_False, decide_True by done.
    rewrite <- Permutation_middle. by rewrite IH.
Qed.

Lemma excluded_reason cfg (df : dataframe) r :
  r ∈ where_Category Excluded (categorize_invoices cfg df) →
  Exclusion_Reason r = note_wire_fee (exclusion_notes cfg) ∨
  Exclusion_Reason r = note_india_withholding (exclusion_notes cfg).
Proof.
  intros [Hc Hr]%list_elem_of_filter.
  rewrite categorize_invoices_map in Hr.
  apply list_elem_of_fmap in Hr as (r0 & -> & _).
  destruct (annotate_cases cfg r0) as [[He _]|[[_ ->]|[[_ ->]|[He _]]]];
    auto; congruence.
Qed.

(** X14. The split of the excluded amount by reason is complete and
    takes no record twice, provided the configured notes can be told apart
    by the words the metrics look for: the wire fee note holds "wire fees"
    and not "India", the withholding note "India" and not "wire fees" (so
    the notes of [__init__]).  Then the records behind [wire_fees] and
    those behind [india_withholding] are together the Excluded records,
    each once. *)
Theorem excluded_breakdown cfg (df : dataframe) m t :
  str_contains "wire fees" (note_wire_fee (exclusion_notes cfg)) = true →
  str_contains "India" (note_wire_fee (exclusion_notes cfg)) = false →
  str_contains "India" (note_india_withholding (exclusion_notes cfg)) = true →
  str_contains "wire fees" (note_india_withholding (exclusion_notes cfg)) = false →
  calculate_ar_metrics (categorize_invoices cfg df) = Ok (m, t) →
  let excl := where_Category Excluded (categorize_invoices cfg df) in
  where_reason_contains "wire fees" excl ++ where_reason_contains "India" excl
    ≡ₚ excl ∧
  Metrics.wire_fees m
    = series_sum (Amount <$> where_reason_contains "wire fees" excl) ∧
  Metrics.india_withholding m
    = series_sum (Amount <$> where_reason_contains "India" excl) ∧
  Metrics.excluded_total m = series_sum (Amount <$> excl).
Proof.
  intros Hww Hwi Hii Hiw [Hm _]%calculate_ar_metrics_Ok.
  apply compute_metrics_Ok in Hm. cbv zeta in Hm.
  destruct Hm as (_ & _ & _ & -> & -> & -> & _). cbv zeta.
  split_and!; try done.
  unfold where_reason_contains. apply filter_split_Permutation.
  apply Forall_forall. intros r Hr.
  destruct (excluded_reason cfg df r Hr) as [-> | ->].
  - left. rewrite Hww, Hwi. done.
  - right. rewrite Hii, Hiw. done.
Qed.

(** With other notes the split can lose an amount: a wire fee note
    without the words "wire fees" leaves the wire fees out of both
    parts. *)
Example excluded_breakdown_custom_note :
  let cfg := mkConfig 100 ["3148"%string]
               (mkNotes "Bank charges" "India Withholding Tax - excluded from AR") in
  let df := categorize_invoices cfg (calculate_days_past_due 20148 sample) in
  match calculate_ar_metrics df with
  | Ok (m, _) =>
      (Metrics.excluded_total m == 550)%Q ∧ (Metrics.wire_fees m == 0)%Q ∧
      (Metrics.india_withholding m == 500)%Q
  | Raise _ => False
  end.
Proof. by vm_compute. Qed.

Lemma metrics_totals_partition_witness :
  where_Category Paid sample_classified
    ++ where_Category CollectibleAR sample_classified
    ++ where_Category Excluded sample_classified ≡ₚ sample_classified.
Proof.
  apply (metrics_totals_partition default_config
           (calculate_days_past_due 20148 sample) sample_metrics sample_aging).
  reflexivity.
Defined.

Lemma excluded_breakdown_witness :
  let excl := where_Category Excluded sample_classified in
  where_reason_contains "wire fees" excl ++ where_reason_contains "India" excl
    ≡ₚ excl.
Proof.
  apply (excluded_breakdown default_config
           (calculate_days_past_due 20148 sample) sample_metrics sample_aging);
    reflexivity.
Defined.

(** ** The aging table: counts, percentages and the high-risk band *)

Lemma series_count_cons a l :
  series_count (a :: l)
  = ((if skipna a is Some _ then 1 else 0) + series_count l)%nat.
Proof. by destruct a. Qed.

Lemma sum_list_cons (x : nat) l : sum_list (x :: l) = (x + sum_list l)%nat.
Proof. reflexivity. Qed.

Section indicator_nat.
Context `{EqDecision K} (k0 : K) (v : nat).

Lemma sum_indicator_notin (ks : list K) :
  k0 ∉ ks →
  sum_list ((fun k => if decide (k0 = k) then v else 0%nat) <$> ks) = 0%nat.
Proof.
  induction ks as [|k ks IH]; intros Hk; [done|].
  apply not_elem_of_cons in Hk as [Hne Hk].
  rewrite fmap_cons, sum_list_cons, decide_False by done.
  by rewrite IH.
Qed.

Lemma sum_indicator (ks : list K) :
  NoDup ks → k0 ∈ ks →
  sum_list ((fun k => if decide (k0 = k) then v else 0%nat) <$> ks) = v.
Proof.
  induction 1 as [|k ks Hk Hnd IH]; intros Hin; [by apply elem_of_nil in Hin|].
  rewrite fmap_cons, sum_list_cons.
  destruct (decide (k0 = k)) as [Heq|Hne].
  - subst k. rewrite sum_indicator_notin by done. lia.
  - apply elem_of_cons in Hin as [?|Hin]; [done|].
    by rewrite IH.
Qed.

End indicator_nat.

(** The groups partition the rows, for the counts as for the sums. *)
Lemma group_counts_total (ks : list string) (rows : list (string * amount_cell)) :
  NoDup ks →
  (∀ k, k ∈ fst <$> rows → k ∈ ks) →
  sum_list ((fun k => series_count (snd <$> filter (fun kr => fst kr = k) rows))
              <$> ks)
  = series_count (snd <$> rows).
Proof.
  intros Hnd. induction rows as [|[k0 a] rows IH]; intros Hcov.
  - clear. induction ks as [|k ks IH]; [done|].
    by rewrite fmap_cons, sum_list_cons, IH.
  - rewrite (fmap_cons snd), series_count_cons.
    rewrite <- IH by (intros k Hk; apply Hcov; rewrite fmap_cons; by right).
    rewrite <- (sum_indicator k0 (if skipna a is Some _ then 1 else 0)%nat ks Hnd)
      at 1 by (apply Hcov; rewrite fmap_cons; by left).
    clear. induction ks as [|k ks IH]; [done|].
    rewrite !fmap_cons, !sum_list_cons, IH, filter_cons.
    cbn [fst snd].
    destruct (decide (k0 = k)); [|lia].
    rewrite fmap_cons, series_count_cons. cbn [fst snd]. lia.
Qed.

Lemma series_count_le_length l : (series_count l ≤ length l)%nat.
Proof.
  induction l as [|a l IH]; [done|].
  rewrite series_count_cons. destruct (skipna a); simpl; lia.
Qed.

(** X15. The invoice counts of the aging table add up to the number of
    Collectible AR records that have an amount: a record with an empty
    Amount cell is in the metrics' count and in no band's count. *)
Theorem aging_counts_total (df : dataframe) m t :
  calculate_ar_metrics df = Ok (m, t) →
  sum_list (Invoice_Count <$> t)
  = series_count (Amount <$> where_Category CollectibleAR df) ∧
  (sum_list (Invoice_Count <$> t) ≤ Metrics.collectible_count m)%nat.
Proof.
  intros [Hm ->]%calculate_ar_metrics_Ok.
  apply compute_metrics_Ok in Hm. cbv zeta in Hm.
  destruct Hm as (_ & _ & _ & _ & _ & _ & _ & -> & _).
  assert (Heq : sum_list (Invoice_Count <$> compute_aging_summary df)
          = series_count (Amount <$> where_Category CollectibleAR df)).
  { unfold compute_aging_summary, sort_by_Order.
    rewrite merge_sort_Permutation. unfold aging_groups, groupby_agg. cbv zeta.
    rewrite <- !list_fmap_compose.
    set (rows := (fun r => (categorize_aging (Days_Past_Due r), Amount r))
                   <$> where_Category CollectibleAR df).
    etrans; [apply (group_counts_total _ rows)|].
    - apply groupby_keys_NoDup.
    - intros k Hk. apply groupby_keys_elem_of.
      unfold rows in Hk. by rewrite <- list_fmap_compose in Hk.
    - unfold rows. by rewrite <- list_fmap_compose. }
  split; [done|]. rewrite Heq.
  etrans; [apply series_count_le_length|]. by rewrite length_fmap.
Qed.

Local Open Scope Q_scope.

(** The totals of the table against the exact sum of the collectible
    amounts, for any frame. *)
Lemma aging_summary_totals_err (df : dataframe) :
  Qabs (Qsum (Total_Amount <$> compute_aging_summary df)
        - series_sum (Amount <$> where_Category CollectibleAR df))
  <= inject_Z (Z.of_nat (length (compute_aging_summary df))) * (1 # 200).
Proof.
  set (rows := (fun r => (categorize_aging (Days_Past_Due r), Amount r))
                 <$> where_Category CollectibleAR df).
  assert (Hsum : Qsum (group_sum rows <$> groupby_keys (collectible_bands df))
                 == series_sum (Amount <$> where_Category CollectibleAR df)).
  { rewrite group_sums_total.
    - unfold rows. by rewrite <- list_fmap_compose.
    - apply groupby_keys_NoDup.
    - intros k Hk. apply groupby_keys_elem_of.
      unfold rows in Hk. by rewrite <- list_fmap_compose in Hk. }
  rewrite (Qsum_Permutation _ _ (aging_summary_totals df)).
  fold rows. rewrite <- Hsum.
  rewrite <- (length_fmap Total_Amount), (aging_summary_totals df).
  rewrite length_fmap. apply Qsum_round2_err.
Qed.

Lemma Qsum_fmap_scale {A} (f : A → Q) (k : Q) (l : list A) :
  Qsum ((fun x => f x * k) <$> l) == Qsum (f <$> l) * k.
Proof.
  induction l as [|x l IH]; [reflexivity|].
  rewrite !fmap_cons, !Qsum_cons, IH. lra.
Qed.

Lemma Qsum_fmap_zero {A} (l : list A) : Qsum ((fun _ => 0) <$> l) == 0.
Proof.
  induction l as [|x l IH]; [reflexivity|].
  rewrite fmap_cons, Qsum_cons, IH. lra.
Qed.

Local Close Scope Q_scope.

(** X16. The percentages that the report shows beside the bands: when the
    collectible amount is positive they add up to 100 up to the rounding
    of the band totals (their distance to 100, times the collectible
    amount, is at most half a unit per band); when it is not, every
    percentage is 0 and nothing is divided. *)
Theorem aging_percentages_total (df : dataframe) m t :
  calculate_ar_metrics df = Ok (m, t) →
  ((0 < Metrics.collectible_ar m)%Q →
   (Qabs (Qsum (aging_pct m <$> t) - 100) * Metrics.collectible_ar m
    <= inject_Z (Z.of_nat (length t)) * (1 # 2))%Q) ∧
  ((Metrics.collectible_ar m <= 0)%Q →
   ∀ e, e ∈ t → aging_pct m e = 0%Q).
Proof.
  intros [Hm ->]%calculate_ar_metrics_Ok.
  apply compute_metrics_Ok in Hm. cbv zeta in Hm.
  destruct Hm as (_ & _ & Hc & _).
  pose proof (aging_summary_totals_err df) as Herr. rewrite <- Hc in Herr.
  set (c := Metrics.collectible_ar m) in *.
  set (t := compute_aging_summary df) in *.
  split.
  - intros Hpos.
    assert (Hs : (Qsum (aging_pct m <$> t)
                  == Qsum (Total_Amount <$> t) * (100 / c))%Q).
    { rewrite <- Qsum_fmap_scale. apply Qsum_fmap_ext. intros e.
      unfold aging_pct. fold c. destruct (Qlt_le_dec 0 c) as [_|Hle].
      - field. intros H0. rewrite H0 in Hpos. by apply Qlt_irrefl in Hpos.
      - exfalso. apply (Qlt_irrefl 0). by apply Qlt_le_trans with c. }
    assert (Hx : (Qabs (Qsum (aging_pct m <$> t) - 100) * c
                  == Qabs ((Qsum (aging_pct m <$> t) - 100) * c))%Q).
    { rewrite Qabs_Qmult, (Qabs_pos c); [reflexivity|by apply Qlt_le_weak]. }
    rewrite Hx.
    assert (He : ((Qsum (aging_pct m <$> t) - 100) * c
                  == (Qsum (Total_Amount <$> t) - c) * 100)%Q).
    { rewrite Hs. field. intros H0. rewrite H0 in Hpos.
      by apply Qlt_irrefl in Hpos. }
    rewrite He, Qabs_Qmult. change (Qabs 100) with 100%Q.
    apply Qabs_Qle_condition in Herr.
    assert (Hb : (Qabs (Qsum (Total_Amount <$> t) - c)
                  <= inject_Z (Z.of_nat (length t)) * (1 # 200))%Q)
      by (by apply Qabs_Qle_condition).
    lra.
  - intros Hle e _. unfold aging_pct. fold c.
    destruct (Qlt_le_dec 0 c) as [Hpos|_]; [|done].
    exfalso. apply (Qlt_irrefl 0). by apply Qlt_le_trans with c.
Qed.

Lemma categorize_aging_over_90 d :
  categorize_aging d = "Over 90 Days Past Due" ↔ 90 < d.
Proof.
  split.
  - unfold categorize_aging. intros H.
    destruct (d =? 0) eqn:E0; [discriminate|].
    destruct (d <=? 30) eqn:E1; [discriminate|].
    destruct (d <=? 60) eqn:E2; [discriminate|].
    destruct (d <=? 90) eqn:E3; [discriminate|].
    apply Z.leb_gt in E3. lia.
  - intros H. unfold categorize_aging.
    destruct (Z.eqb_spec d 0); [lia|].
    destruct (Z.leb_spec d 30); [lia|].
    destruct (Z.leb_spec d 60); [lia|].
    destruct (Z.leb_spec d 90); [lia|done].
Qed.

(** X17. The high-risk figures of the summary are those of the Over 90
    row of the aging table, which is there exactly when some Collectible
    AR record is more than 90 days past due: the count is the number of
    these records that have an amount, and both figures are 0 when there
    is no such record. *)
Theorem over_90_figures (df : dataframe) m t :
  calculate_ar_metrics df = Ok (m, t) →
  let late := filter (fun r => 90 < Days_Past_Due r)
                (where_Category CollectibleAR df) in
  over_90_count t = series_count (Amount <$> late) ∧
  (late = [] → over_90_count t = 0%nat ∧ over_90_amount t = 0%Q) ∧
  (late ≠ [] →
   ∃ e, e ∈ t ∧ Aging_Category e = "Over 90 Days Past Due" ∧
        over_90_amount t = Total_Amount e ∧
        over_90_count t = Invoice_Count e).
Proof.
  intros [_ ->]%calculate_ar_metrics_Ok. cbv zeta.
  assert (Hband : band_amounts df "Over 90 Days Past Due"
          = Amount <$> filter (fun r => 90 < Days_Past_Due r)
                         (where_Category CollectibleAR df)).
  { unfold band_amounts. f_equal. apply list_filter_iff.
    intros r. apply categorize_aging_over_90. }
  rewrite <- Hband.
  unfold over_90_count, over_90_amount.
  destruct (over_90_rows (compute_aging_summary df)) as [|e l] eqn:E.
  - assert (Hnil : band_amounts df "Over 90 Days Past Due" = []).
    { unfold band_amounts.
      destruct (filter (fun r => categorize_aging (Days_Past_Due r)
                                 = "Over 90 Days Past Due")
                  (where_Category CollectibleAR df)) as [|r l] eqn:Ef;
        [done|]. exfalso.
      assert (Hr : r ∈ filter (fun r => categorize_aging (Days_Past_Due r)
                                        = "Over 90 Days Past Due")
                         (where_Category CollectibleAR df))
        by (rewrite Ef; left).
      apply list_elem_of_filter in Hr as [Hb [Hc Hr]%list_elem_of_filter].
      destruct (proj2 (aging_summary_band_present df "Over 90 Days Past Due"))
        as (e & He & Hcat); [eauto|].
      assert (He' : e ∈ over_90_rows (compute_aging_summary df))
        by (by apply list_elem_of_filter).
      rewrite E in He'. by apply elem_of_nil in He'. }
    rewrite Hnil. split_and!; try done.
    intros Hne. exfalso. apply Hne.
    rewrite Hband in Hnil. by apply fmap_nil_inv in Hnil.
  - assert (He : e ∈ over_90_rows (compute_aging_summary df))
      by (rewrite E; left).
    apply list_elem_of_filter in He as [Hcat He].
    pose proof (aging_summary_entry df e He) as Hentry.
    rewrite Hcat in Hentry. split_and!.
    + by rewrite Hentry.
    + intros Hl. exfalso.
      destruct (proj1 (aging_summary_band_present df "Over 90 Days Past Due"))
        as (r & Hin & Hc & Hb%categorize_aging_over_90); [eauto|].
      assert (Hr : r ∈ filter (fun r => 90 < Days_Past_Due r)
                         (where_Category CollectibleAR df)).
      { apply list_elem_of_filter. split; [done|].
        by apply list_elem_of_filter. }
      rewrite Hl in Hr. by apply elem_of_nil in Hr.
    + intros _. exists e. split_and!; done.
Qed.

Lemma aging_counts_total_witness :
  calculate_ar_metrics sample_classified = Ok (sample_metrics, sample_aging) ∧
  sum_list (Invoice_Count <$> sample_aging)
  = series_count (Amount <$> where_Category CollectibleAR sample_classified).
Proof.
  split; [reflexivity|].
  apply (aging_counts_total sample_classified sample_metrics sample_aging
           eq_refl).
Defined.

Lemma aging_percentages_total_witness :
  calculate_ar_metrics sample_classified = Ok (sample_metrics, sample_aging) ∧
  (0 < Metrics.collectible_ar sample_metrics)%Q ∧
  (Qabs (Qsum (aging_pct sample_metrics <$> sample_aging) - 100)
   * Metrics.collectible_ar sample_metrics
   <= inject_Z (Z.of_nat (length sample_aging)) * (1 # 2))%Q.
Proof.
  split; [reflexivity|]. split; [reflexivity|].
  apply (aging_percentages_total sample_classified sample_metrics sample_aging
           eq_refl).
  reflexivity.
Defined.

Lemma over_90_figures_witness :
  calculate_ar_metrics sample_classified = Ok (sample_metrics, sample_aging) ∧
  over_90_count sample_aging
  = series_count
      (Amount <$> filter (fun r => 90 < Days_Past_Due r)
                    (where_Category CollectibleAR sample_classified)).
Proof.
  split; [reflexivity|].
  apply (over_90_figures sample_classified sample_metrics sample_aging eq_refl).
Defined.

(** ** create_excel_report: the order of the invoice sheet *)

#[global] Instance Days_ge_trans : Transitive Days_ge.
Proof. intros a b c. unfold Days_ge. lia. Qed.

#[global] Instance Days_ge_total : Total Days_ge.
Proof. intros a b. unfold Days_ge. lia. Qed.

(** X18. The invoice sheet lists the same records, each as often as in the
    frame, by falling Days Past Due: no record is followed by one that is
    longer past due, and the first one is as long past due as any. *)
Theorem sort_by_days_desc_spec (df : dataframe) :
  sort_by_days_desc df ≡ₚ df ∧
  StronglySorted Days_ge (sort_by_days_desc df) ∧
  (∀ r0 l, sort_by_days_desc df = r0 :: l →
     ∀ r, r ∈ df → Days_Past_Due r ≤ Days_Past_Due r0).
Proof.
  unfold sort_by_days_desc. split_and!.
  - apply merge_sort_Permutation.
  - apply StronglySorted_merge_sort; apply _.
  - intros r0 l E r Hr.
    pose proof (StronglySorted_merge_sort Days_ge df) as Hs.
    rewrite E in Hs. inversion Hs as [|? ? _ Hall]; subst.
    rewrite <- (merge_sort_Permutation Days_ge df), E in Hr.
    apply elem_of_cons in Hr as [->|Hr]; [done|].
    rewrite Forall_forall in Hall. by apply Hall.
Qed.

(** ** load_data: the column names *)

Lemma column_mapping_values c v :
  column_mapping !! c = Some v → column_mapping !! v = None.
Proof.
  unfold column_mapping. intros H%elem_of_list_to_map_2.
  repeat (apply elem_of_cons in H as [[= -> ->]|H]; [by vm_compute|]).
  by apply elem_of_nil in H.
Qed.

(** X19. Renaming the headers: the four aliases become the names the analysis
    reads, any other header is kept, no alias is left, so that renaming
    again changes nothing; the six expected headers are kept as they
    are. *)
Theorem rename_columns_spec (cols : list string) :
  length (rename_columns cols) = length cols ∧
  (∀ c, c ∈ rename_columns cols → column_mapping !! c = None) ∧
  rename_columns (rename_columns cols) = rename_columns cols ∧
  (∀ i c, cols !! i = Some c → column_mapping !! c = None →
          rename_columns cols !! i = Some c) ∧
  rename_columns required_cols = required_cols ∧
  rename_columns
    ["Document Number"; "Name"; "Maximum of Date";
     "Maximum of Due Date/Receive By"; "Maximum of Payment Date";
     "Sum of Amount"]
  = required_cols.
Proof.
  assert (Hfix : ∀ c, column_mapping !! default c (column_mapping !! c) = None).
  { intros c. destruct (column_mapping !! c) as [v|] eqn:E; simpl; [|done].
    by apply (column_mapping_values c). }
  unfold rename_columns. split_and!.
  - apply length_fmap.
  - intros c (c0 & -> & _)%list_elem_of_fmap. apply Hfix.
  - rewrite <- list_fmap_compose. apply list_fmap_ext.
    intros _ c _. simpl. by rewrite Hfix.
  - intros i c Hi Hc. by rewrite list_lookup_fmap, Hi; simpl; rewrite Hc.
  - by vm_compute.
  - by vm_compute.
Qed.

(** Renaming can make two headers equal: a sheet that has a column under
    the alias and one under the name itself ends with that name twice. *)
Example rename_columns_duplicate :
  rename_columns ["Amount"; "Sum of Amount"] = ["Amount"; "Amount"].
Proof. by vm_compute. Qed.

(** ** The passes in sequence *)

Lemma run_core_Ok cfg today (df : dataframe) df' m t :
  run_core cfg today df = Ok (df', m, t) →
  df' = categorize_invoices cfg (calculate_days_past_due today df) ∧
  calculate_ar_metrics df' = Ok (m, t).
Proof.
  unfold run_core. cbv zeta.
  destruct (calculate_ar_metrics _) as [[m' t']|e] eqn:E; simpl; [|discriminate].
  by intros [= <- <- <-].
Qed.

(** X20. After the three passes every record has a Days Past Due that is not
    negative and a category other than Unknown, there are as many records
    as were read, the oldest-days figure is not negative, and every band of
    the aging table has at least one Collectible AR record. *)
Theorem run_core_invariants cfg today (df : dataframe) df' m t :
  run_core cfg today df = Ok (df', m, t) →
  length df' = length df ∧
  Forall (fun r => 0 ≤ Days_Past_Due r ∧ Category r ≠ Unknown) df' ∧
  0 ≤ Metrics.oldest_days m ∧
  Forall (fun e => ∃ r, r ∈ df' ∧ Category r = CollectibleAR ∧
                        categorize_aging (Days_Past_Due r) = Aging_Category e) t.
Proof.
  intros [-> Hm]%run_core_Ok.
  assert (Hdays : Forall (fun r => 0 ≤ Days_Past_Due r)
            (categorize_invoices cfg (calculate_days_past_due today df))).
  { rewrite categorize_invoices_map, Forall_fmap. apply Forall_forall.
    intros r Hr%calculate_days_past_due_nonneg. simpl.
    by rewrite (proj2 (proj2 (proj2 (proj2 (proj2 (proj2
                 (annotate_frame cfg r))))))). }
  split_and!.
  - rewrite categorize_invoices_length. apply length_map.
  - pose proof (categorize_invoices_no_Unknown cfg
                  (calculate_days_past_due today df)) as Hu.
    rewrite Forall_forall in Hdays, Hu |- *. intros r Hr. split; auto.
  - destruct (oldest_days_max _ _ _ Hm) as (_ & Hmax & Hzero).
    destruct (decide (Exists (fun r => Category r = CollectibleAR)
                (categorize_invoices cfg (calculate_days_past_due today df))))
      as [Hex|Hno].
    + apply Exists_exists in Hex as (r & Hr & Hc).
      destruct Hmax as (r1 & Hr1 & _ & <-); [eauto|].
      rewrite Forall_forall in Hdays. by apply Hdays.
    + rewrite Hzero; [done|]. intros r Hr Hc. apply Hno.
      apply Exists_exists. eauto.
  - apply calculate_ar_metrics_Ok in Hm as [_ ->].
    apply Forall_forall. intros e He.
    apply aging_summary_band_present. eauto.
Qed.

(** X21. Every Collectible AR record that has a number for an amount has
    it above the wire fee threshold; and with a threshold that is not
    negative no Collectible AR record has [None] for an amount (an empty
    cell read as [nan] can be Collectible AR). *)
Theorem collectible_amounts_above_threshold cfg (df : dataframe) :
  Forall (fun r =>
            (∀ q, Amount r = AmountNum q → (wire_fee_threshold cfg < q)%Q) ∧
            ((0 <= wire_fee_threshold cfg)%Q → Amount r ≠ AmountNone))
    (where_Category CollectibleAR (categorize_invoices cfg df)).
Proof.
  apply Forall_forall. intros r' [Hc Hr']%list_elem_of_filter.
  apply list_elem_of_lookup in Hr' as [i Hi].
  pose proof Hi as Hi'. rewrite categorize_invoices_lookup in Hi'.
  destruct (df !! i) as [r|] eqn:Hr; [|discriminate].
  destruct (category_of_input cfg df i r r' Hr Hi) as (_ & _ & Hcol).
  apply Hcol in Hc as (_ & _ & Hbig).
  injection Hi' as <-.
  rewrite (proj1 (proj2 (proj2 (proj2 (proj2 (proj2 (annotate_frame cfg r))))))).
  split.
  - intros q Hq. rewrite Hq in Hbig. simpl in Hbig. by apply Qnot_le_lt.
  - intros Ht Hn. rewrite Hn in Hbig. by apply Hbig.
Qed.

Lemma run_core_invariants_witness :
  run_core default_config 20148 sample
  = Ok (sample_classified, sample_metrics, sample_aging) ∧
  length sample_classified = length sample ∧
  0 ≤ Metrics.oldest_days sample_metrics.
Proof.
  split; [reflexivity|].
  destruct (run_core_invariants default_config 20148 sample sample_classified
              sample_metrics sample_aging eq_refl) as (Hlen & _ & Hold & _).
  split; [exact Hlen|exact Hold].
Defined.
